(** * A shallow embedding of the eliza_bot posting pipeline

    The bot lives in [app.py] (OpenAI generation, chunked summarisation,
    fallback prompts and the $FEDJA reference) and [twitter_bot.py]
    (per-model OpenAI rate limits, DeepSeek retries, the CryptoPanic topic
    cache and the main loop).

    Python strings are sequences of code points: a [pystr] is a list of
    code points and [length] is Python's [len].  Wall-clock readings of
    [time.time()] are rationals.  Provider answers, HTTP responses and the
    draws of [random.choice] are inputs of the model: they are queues that
    each call consumes, so a theorem quantifying over the queue covers every
    behaviour of the remote services. *)

From Stdlib Require Import String Ascii ZArith QArith Lqa Lia List Bool.
Import ListNotations.
Open Scope list_scope.

(* ------------------------------------------------------------------ *)
(** ** Python strings *)

Module PyStr.

Definition pystr := list Z.

Local Open Scope Z_scope.

(** A literal written in ASCII, as its list of code points. *)
Fixpoint ascii_str (s : string) : pystr :=
  match s with
  | EmptyString => []
  | String c rest => Z.of_nat (nat_of_ascii c) :: ascii_str rest
  end.

(** Truthiness of a Python string: [if s:]. *)
Definition truthy (s : pystr) : bool :=
  match s with [] => false | _ => true end.

(** [str.isspace] for one code point (the characters Python strips). *)
Definition is_space (c : Z) : bool :=
  ((9 <=? c) && (c <=? 13)) || ((28 <=? c) && (c <=? 32)) || (c =? 133) ||
  (c =? 160) || (c =? 5760) || ((8192 <=? c) && (c <=? 8202)) ||
  (c =? 8232) || (c =? 8233) || (c =? 8239) || (c =? 8287) || (c =? 12288).

Fixpoint lstrip (s : pystr) : pystr :=
  match s with
  | [] => []
  | c :: rest => if is_space c then lstrip rest else s
  end.

(** [s.strip()] *)
Definition strip (s : pystr) : pystr := rev (lstrip (rev (lstrip s))).

(** [s[:k]] for an integer [k], negative [k] counting from the end. *)
Definition slice_to (s : pystr) (k : Z) : pystr :=
  if (0 <=? k)%Z then firstn (Z.to_nat k) s
  else firstn (Z.to_nat (Z.of_nat (length s) + k)) s.

(** [sep.join(l)] *)
Fixpoint join (sep : pystr) (l : list pystr) : pystr :=
  match l with
  | [] => []
  | [x] => x
  | x :: rest => x ++ sep ++ join sep rest
  end.

Fixpoint is_prefix (p s : pystr) : bool :=
  match p, s with
  | [], _ => true
  | _ :: _, [] => false
  | a :: p', b :: s' => (a =? b)%Z && is_prefix p' s'
  end.

(** [p in s] for strings: substring test. *)
Fixpoint contains (p s : pystr) : bool :=
  is_prefix p s || match s with [] => false | _ :: s' => contains p s' end.

(** [range(start, stop, step)] for [step > 0]; [fuel] bounds the number
    of elements, and [stop - start] of it is always enough. *)
Fixpoint range_go (fuel i stop step : nat) : list nat :=
  match fuel with
  | O => []
  | S f => if (i <? stop)%nat then i :: range_go f (i + step)%nat stop step else []
  end.

(** [range(0, stop, step)]; [None] is the [ValueError] of [step == 0],
    and a negative step gives the empty range since [0 > stop] fails. *)
Definition range0 (stop : nat) (step : Z) : option (list nat) :=
  if (step =? 0)%Z then None
  else if (step <? 0)%Z then Some []
  else Some (range_go stop 0 stop (Z.to_nat step)).

End PyStr.

Import PyStr.

(* ------------------------------------------------------------------ *)
(** ** [app.py]: [chunk_text] *)

Module App.

(** [chunk_text(text, chunk_size)]:
    [[text[i:i + chunk_size] for i in range(0, len(text), chunk_size)]];
    [None] is the [ValueError] raised by [range] for a zero size. *)
Definition chunk_text (text : pystr) (chunk_size : Z) : option (list pystr) :=
  match range0 (length text) chunk_size with
  | None => None
  | Some idx => Some (map (fun i => firstn (Z.to_nat chunk_size) (skipn i text)) idx)
  end.

(** *** The effects of [app.py]

    [call_openai] consumes the next answer of the OpenAI queue ([None]: the
    call raised, which [call_openai] turns into [None]) and records the
    prompt; [random.choice] consumes the next draw; [post_tweet] records the
    text it posts. *)
Record app_world := mkAppWorld {
  responses : list (option pystr);
  draws : list nat;
  sent : list pystr;
  posted : list pystr }.

Definition AppM (A : Type) : Type := app_world -> A * app_world.

Definition ret {A} (a : A) : AppM A := fun w => (a, w).

Definition bind {A B} (m : AppM A) (f : A -> AppM B) : AppM B :=
  fun w => let (a, w') := m w in f a w'.

Notation "x <- m ;; k" := (bind m (fun x => k))
  (at level 61, m at next level, right associativity).

(** [call_openai(prompt)]: [response.choices[0].message.content.strip()],
    or [None] when the API call raised. *)
Definition call_openai (prompt : pystr) : AppM (option pystr) :=
  fun w =>
    let log := sent w ++ [prompt] in
    match responses w with
    | [] => (None, mkAppWorld [] (draws w) log (posted w))
    | r :: rs => (option_map strip r, mkAppWorld rs (draws w) log (posted w))
    end.

(** [random.choice(l)] with the next draw [k] picks [l[k mod len(l)]];
    every call site passes a non-empty list, so [d] is never returned. *)
Definition choice {A} (d : A) (l : list A) : AppM A :=
  fun w =>
    let '(k, ks) := match draws w with [] => (O, []) | k :: ks => (k, ks) end in
    (nth (Nat.modulo k (length l)) l d,
     mkAppWorld (responses w) ks (sent w) (posted w)).

(** [post_tweet(text, None)] *)
Definition post_tweet (text : pystr) : AppM unit :=
  fun w => (tt, mkAppWorld (responses w) (draws w) (sent w) (posted w ++ [text])).

(** [load_prompts(file_path)]: the stripped non-blank lines, or [[]] when
    the file cannot be read ([None]). *)
Definition load_prompts (file : option (list pystr)) : list pystr :=
  match file with
  | None => []
  | Some lines => map strip (filter (fun line => truthy (strip line)) lines)
  end.

Local Open Scope Z_scope.

(** [summarize_text]: the prompt of one chunk. *)
Definition summarize_prompt (chunk : pystr) : pystr :=
  ascii_str "Summarize the following text in 280 characters or less: " ++ chunk.

(** The [for chunk in chunks] loop of [summarize_text]. *)
Fixpoint summarize_chunks (chunks summaries : list pystr) : AppM (list pystr) :=
  match chunks with
  | [] => ret summaries
  | chunk :: rest =>
      summary <- call_openai (summarize_prompt chunk) ;;
      summarize_chunks rest
        (match summary with
         | Some t => if truthy t then summaries ++ [t] else summaries
         | None => summaries
         end)
  end.

(** [summarize_text(text)]; the [ValueError] of [chunk_text] (impossible
    with the size 1000) would be caught and give [None]. *)
Definition summarize_text (text : pystr) : AppM (option pystr) :=
  match chunk_text text 1000 with
  | None => ret None
  | Some chunks =>
      summaries <- summarize_chunks chunks [] ;;
      let combined_summary := join (ascii_str " ") summaries in
      let combined_summary :=
        if 280 <? Z.of_nat (length combined_summary)
        then slice_to combined_summary 280 else combined_summary in
      if negb (truthy combined_summary) then ret None
      else ret (Some combined_summary)
  end.

(** The [category] argument: ["fedja"], ["general_crypto"] or any other
    string. *)
Inductive category := Fedja | GeneralCrypto | OtherCategory (name : pystr).

Definition FEDJA_CONTRACT_ADDRESS : pystr :=
  ascii_str "9oDw3Q36a8mVHfPCSmxYBXE9iLeJjsCYu97JGpPwDvVZ".

Definition FEDJA_TWITTER_TAG : pystr := ascii_str "@Fedja_SOL".

(** The dog emoji as it is stored in [app.py] (U+F8FF, u-umlaut,
    e-circumflex, i-diaeresis). *)
Definition dog_glyph : pystr := [63743; 252; 234; 239].

(** The short fallback tweets of [generate_and_post_tweet], code point for
    code point as stored in [app.py]. *)
Definition short_fallbacks : list pystr :=
  [ ascii_str "Crypto is wild today! " ++ [63743; 252; 246; 196] ++ ascii_str " #CryptoChat";
    ascii_str "AI is changing everything! " ++ [63743; 252; 167; 241] ++ ascii_str " #CryptoTech";
    ascii_str "DeFi is the future! " ++ [63743; 252; 236; 224] ++ ascii_str " #DeFiInsight";
    ascii_str "Memecoins are here to stay! " ++ dog_glyph ++ ascii_str " #MemeCoins" ].

Inductive reference_type := Contract | Twitter.

(** [fedja_reference] for each [reference_type]. *)
Definition fedja_reference (r : reference_type) : pystr :=
  match r with
  | Contract =>
      [10; 10] ++ ascii_str "$FEDJA | " ++ FEDJA_CONTRACT_ADDRESS ++ ascii_str " "
        ++ dog_glyph ++ ascii_str " #FedjaFren"
  | Twitter =>
      [10; 10] ++ ascii_str "Check out " ++ FEDJA_TWITTER_TAG
        ++ ascii_str " for more info! " ++ dog_glyph ++ ascii_str " #FedjaMoon"
  end.

(** The $FEDJA block of [generate_and_post_tweet] once the reference is
    chosen. *)
Definition append_reference (final_tweet reference : pystr) : pystr :=
  if Z.of_nat (length final_tweet) + Z.of_nat (length reference) <=? 280
  then final_tweet ++ reference
  else
    let max_length := 280 - Z.of_nat (length reference) in
    slice_to final_tweet max_length ++ reference.

Section Prompts.

(** The contents of [fedja_prompts.txt] and [general_crypto_prompts.txt]
    ([None]: unreadable). *)
Variables fedja_file general_file : option (list pystr).

Definition FEDJA_PROMPTS : list pystr := load_prompts fedja_file.
Definition GENERAL_CRYPTO_PROMPTS : list pystr := load_prompts general_file.

(** [get_fallback_prompt(category)] *)
Definition get_fallback_prompt (c : category) : AppM pystr :=
  match c with
  | Fedja =>
      match FEDJA_PROMPTS with
      | [] => ret (ascii_str "Default $FEDJA prompt.")
      | _ => choice [] FEDJA_PROMPTS
      end
  | GeneralCrypto =>
      match GENERAL_CRYPTO_PROMPTS with
      | [] => ret (ascii_str "Default general crypto prompt.")
      | _ => choice [] GENERAL_CRYPTO_PROMPTS
      end
  | OtherCategory _ => ret (ascii_str "Default prompt.")
  end.

(** The values [get_fallback_prompt(category)] can return. *)
Definition fallback_candidates (c : category) : list pystr :=
  match c with
  | Fedja =>
      match FEDJA_PROMPTS with
      | [] => [ascii_str "Default $FEDJA prompt."]
      | l => l
      end
  | GeneralCrypto =>
      match GENERAL_CRYPTO_PROMPTS with
      | [] => [ascii_str "Default general crypto prompt."]
      | l => l
      end
  | OtherCategory _ => [ascii_str "Default prompt."]
  end.

(** [generate_and_post_tweet(base_prompt, category)] *)
Definition generate_and_post_tweet (base_prompt : pystr) (c : category) : AppM unit :=
  detailed <- call_openai base_prompt ;;
  detailed_text <-
    (match detailed with
     | Some d => if truthy d then ret d else get_fallback_prompt c
     | None => get_fallback_prompt c
     end) ;;
  summarized_text <- summarize_text detailed_text ;;
  final_tweet <-
    (match summarized_text with
     | Some t => if truthy t then ret t else get_fallback_prompt c
     | None => get_fallback_prompt c
     end) ;;
  final_tweet <-
    (if 280 <? Z.of_nat (length final_tweet) then get_fallback_prompt c
     else ret final_tweet) ;;
  final_tweet <-
    (if 280 <? Z.of_nat (length final_tweet) then choice [] short_fallbacks
     else ret final_tweet) ;;
  final_tweet <-
    (match c with
     | Fedja =>
         r <- choice Contract [Contract; Twitter] ;;
         ret (append_reference final_tweet (fedja_reference r))
     | _ => ret final_tweet
     end) ;;
  post_tweet final_tweet.

End Prompts.

End App.

(* ------------------------------------------------------------------ *)
(** ** [twitter_bot.py] *)

Module TwitterBot.

Local Open Scope Q_scope.

(** The exceptions the modelled code raises or catches. *)
Inductive exn :=
  | RateLimitError
  | HTTPError (status : Z) (retry_after_header : option (option Z))
  | ValueError
  | TypeError
  | KeyError
  | RecursionError
  | OtherError.

Inductive res (A : Type) : Type := Ok (a : A) | Exc (e : exn).
Arguments Ok {A} a.
Arguments Exc {A} e.

(** State and exceptions over the globals of the code ([S]). *)
Definition M (S A : Type) : Type := S -> res A * S.

Definition ret {S A} (a : A) : M S A := fun s => (Ok a, s).
Definition raise {S A} (e : exn) : M S A := fun s => (Exc e, s).
Definition lift {S A} (r : res A) : M S A := fun s => (r, s).

Definition bind {S A B} (m : M S A) (f : A -> M S B) : M S B :=
  fun s => match m s with
           | (Ok a, s') => f a s'
           | (Exc e, s') => (Exc e, s')
           end.

(** [try: m except e: h(e)] *)
Definition catch {S A} (m : M S A) (h : exn -> M S A) : M S A :=
  fun s => match m s with
           | (Ok a, s') => (Ok a, s')
           | (Exc e, s') => h e s'
           end.

Notation "x <- m ;; k" := (bind m (fun x => k))
  (at level 61, m at next level, right associativity).
Notation "m ;;; k" := (bind m (fun _ => k))
  (at level 61, right associativity).

(** [res] as a monad, for the pure parts. *)
Definition rbind {A B} (r : res A) (f : A -> res B) : res B :=
  match r with Ok a => f a | Exc e => Exc e end.

(** [a < b] on rationals. *)
Definition Qltb (a b : Q) : bool := negb (Qle_bool b a).

(** The wall clock: [time.time()] reads it, [time.sleep(d)] advances it by
    [d] and raises [ValueError] on a negative [d]. *)
Class Clock (S : Type) := {
  now_of : S -> Q;
  wait : Q -> S -> S }.

Definition time_time {S} `{Clock S} : M S Q := fun s => (Ok (now_of s), s).

Definition sleep {S} `{Clock S} (d : Q) : M S unit :=
  fun s => if Qltb d 0 then (Exc ValueError, s) else (Ok tt, wait d s).

(** *** OpenAI rate limits and [call_openai_with_backoff] *)

Inductive model := Gpt35Turbo | Gpt4oMini.

Definition model_eqb (a b : model) : bool :=
  match a, b with
  | Gpt35Turbo, Gpt35Turbo | Gpt4oMini, Gpt4oMini => true
  | _, _ => false
  end.

(** One entry of [OPENAI_RATE_LIMITS]. *)
Record usage := mkUsage {
  tpm : Z; rpm : Z; tokens_used : Z; requests_used : Z; last_reset : Q }.

(** [OPENAI_RATE_LIMITS] as created at start-up time [t0]. *)
Definition initial_openai_limits (t0 : Q) (m : model) : usage :=
  match m with
  | Gpt35Turbo => mkUsage 40000 3 0 0 t0
  | Gpt4oMini => mkUsage 60000 3 0 0 t0
  end.

(** What one [openai.ChatCompletion.create] call does. *)
Inductive openai_outcome :=
  | OaiRateLimited
  | OaiFailure
  | OaiCompletion (content : pystr) (total_tokens : Z).

Record oai_world := mkOaiWorld {
  oai_clock : Q;
  oai_slept : list Q;
  OPENAI_RATE_LIMITS : model -> usage;
  oai_queue : list openai_outcome;
  oai_calls : nat }.

#[export] Instance oai_clock_inst : Clock oai_world := {
  now_of := oai_clock;
  wait d w := mkOaiWorld (oai_clock w + d) (oai_slept w ++ [d])
                (OPENAI_RATE_LIMITS w) (oai_queue w) (oai_calls w) }.

Definition OaiM := M oai_world.

Definition get_usage (m : model) : OaiM usage :=
  fun w => (Ok (OPENAI_RATE_LIMITS w m), w).

Definition set_usage (m : model) (u : usage) : OaiM unit :=
  fun w => (Ok tt, mkOaiWorld (oai_clock w) (oai_slept w)
                     (fun m' => if model_eqb m' m then u else OPENAI_RATE_LIMITS w m')
                     (oai_queue w) (oai_calls w)).

(** [usage["tokens_used"] = 0; usage["requests_used"] = 0;
    usage["last_reset"] = t] *)
Definition reset_usage (u : usage) (t : Q) : usage :=
  mkUsage (tpm u) (rpm u) 0 0 t.

(** [check_openai_rate_limit(model)] *)
Definition check_openai_rate_limit (m : model) : OaiM unit :=
  current_time <- time_time ;;
  u <- get_usage m ;;
  (if Qle_bool 60 (current_time - last_reset u)
   then set_usage m (reset_usage u current_time) else ret tt) ;;;
  u <- get_usage m ;;
  (if (tpm u <=? tokens_used u)%Z then
     let sleep_time := 60 - (current_time - last_reset u) in
     sleep sleep_time ;;;
     t <- time_time ;;
     set_usage m (reset_usage u t)
   else ret tt) ;;;
  u <- get_usage m ;;
  if (rpm u <=? requests_used u)%Z then
    let sleep_time := 60 - (current_time - last_reset u) in
    sleep sleep_time ;;;
    t <- time_time ;;
    set_usage m (reset_usage u t)
  else ret tt.

(** [openai.ChatCompletion.create(...)]: the next outcome of the queue
    (an exhausted queue fails). *)
Definition chat_completion : OaiM (pystr * Z) :=
  fun w =>
    let '(o, rest) := match oai_queue w with
                      | [] => (OaiFailure, [])
                      | o :: rest => (o, rest)
                      end in
    let w' := mkOaiWorld (oai_clock w) (oai_slept w) (OPENAI_RATE_LIMITS w)
                rest (S (oai_calls w)) in
    match o with
    | OaiRateLimited => (Exc RateLimitError, w')
    | OaiFailure => (Exc OtherError, w')
    | OaiCompletion content total => (Ok (content, total), w')
    end.

(** The [while retries < 5] loop of [call_openai_with_backoff]; [fuel]
    counts the iterations left, five from the start. *)
Fixpoint backoff_loop (fuel retries : nat) (m : model) : OaiM (option pystr) :=
  match fuel with
  | O => ret None
  | S f =>
      if (retries <? 5)%nat then
        catch
          (check_openai_rate_limit m ;;;
           response <- chat_completion ;;
           u <- get_usage m ;;
           set_usage m (mkUsage (tpm u) (rpm u) (tokens_used u + snd response)
                          (requests_used u + 1) (last_reset u)) ;;;
           ret (Some (strip (fst response))))
          (fun e =>
             match e with
             | RateLimitError =>
                 let retries := S retries in
                 sleep (inject_Z (Z.min (2 ^ Z.of_nat retries) 60)) ;;;
                 backoff_loop f retries m
             | _ => ret None
             end)
      else ret None
  end.

(** [call_openai_with_backoff(prompt, model)]; the prompt only matters to
    the remote service, whose answers are the queue. *)
Definition call_openai_with_backoff (m : model) : OaiM (option pystr) :=
  backoff_loop 5 0 m.

(** The [regular_tweet] branch of [run_bot]: the text it passes to
    [client.create_tweet] ([check_twitter_rate_limit] does not touch it). *)
Definition regular_tweet : OaiM (option pystr) :=
  tweet <- call_openai_with_backoff Gpt35Turbo ;;
  match tweet with
  | Some t => if truthy t then ret (Some t) else ret None
  | None => ret None
  end.

(** *** DeepSeek: [fetch_deepseek_response] *)

(** A header value as [int()] reads it: [Some n] for a value [int()]
    accepts, [None] for one on which it raises [ValueError] (a decimal or
    an HTTP date, say). *)
Definition header := option Z.

(** One [requests.post] to DeepSeek: a connection error, or a status, the
    [Retry-After] header ([None]: absent), the [X-RateLimit-Remaining] and
    [X-RateLimit-Reset] headers ([None]: not both present) and the extracted
    [choices[0].message.content] ([None]: the body does not parse). *)
Inductive ds_response :=
  | DsConnectionError
  | DsHttp (status : Z) (retry_after_header : option header)
           (rate_headers : option (header * header)) (content : option pystr).

(** [DEEPSEEK_RATE_LIMIT] and the DeepSeek traffic. *)
Record ds_world := mkDsWorld {
  ds_clock : Q;
  ds_slept : list Q;
  last_request_time : Q;
  retry_after : Q;
  ds_queue : list ds_response;
  ds_calls : nat }.

#[export] Instance ds_clock_inst : Clock ds_world := {
  now_of := ds_clock;
  wait d w := mkDsWorld (ds_clock w + d) (ds_slept w ++ [d]) (last_request_time w)
                (retry_after w) (ds_queue w) (ds_calls w) }.

Definition DsM := M ds_world.

Definition get_ds : DsM ds_world := fun w => (Ok w, w).

Definition set_last_request_time (t : Q) : DsM unit :=
  fun w => (Ok tt, mkDsWorld (ds_clock w) (ds_slept w) t (retry_after w)
                     (ds_queue w) (ds_calls w)).

Definition set_retry_after (r : Q) : DsM unit :=
  fun w => (Ok tt, mkDsWorld (ds_clock w) (ds_slept w) (last_request_time w) r
                     (ds_queue w) (ds_calls w)).

Definition post_request : DsM ds_response :=
  fun w =>
    let '(r, rest) := match ds_queue w with
                      | [] => (DsConnectionError, [])
                      | r :: rest => (r, rest)
                      end in
    (Ok r, mkDsWorld (ds_clock w) (ds_slept w) (last_request_time w)
             (retry_after w) rest (S (ds_calls w))).

(** [response.raise_for_status()] *)
Definition bad_status (status : Z) : bool := (400 <=? status)%Z && (status <? 600)%Z.

(** [fetch_deepseek_response(prompt)]; [fuel] is the number of nested
    calls the Python stack still allows: a call beyond it raises
    [RecursionError]. *)
Fixpoint fetch_deepseek_response (fuel : nat) : DsM (option pystr) :=
  match fuel with
  | O => raise RecursionError
  | S f =>
      current_time <- time_time ;;
      st <- get_ds ;;
      (if Qltb (current_time - last_request_time st) (retry_after st)
       then sleep (retry_after st - (current_time - last_request_time st))
       else ret tt) ;;;
      catch
        (response <- post_request ;;
         match response with
         | DsConnectionError => raise OtherError
         | DsHttp status hdr rate content =>
             (if bad_status status then raise (HTTPError status hdr) else ret tt) ;;;
             t <- time_time ;;
             set_last_request_time t ;;;
             (match rate with
              | Some (remaining_header, reset_header) =>
                  match remaining_header with
                  | None => raise ValueError
                  | Some remaining_requests =>
                  match reset_header with
                  | None => raise ValueError
                  | Some reset_time =>
                  if (remaining_requests =? 0)%Z then
                    t' <- time_time ;;
                    set_retry_after (inject_Z reset_time - t')
                  else
                    let q := inject_Z reset_time / inject_Z remaining_requests in
                    set_retry_after (if Qltb 1 q then q else 1)
                  end
                  end
              | None => ret tt
              end) ;;;
             match content with
             | Some c => ret (Some (strip c))
             | None => raise OtherError
             end
         end)
        (fun e =>
           match e with
           | HTTPError status hdr =>
               if (status =? 429)%Z then
                 match match hdr with Some v => v | None => Some 1%Z end with
                 | None => raise ValueError
                 | Some ra =>
                     set_retry_after (inject_Z ra) ;;;
                     sleep (inject_Z ra) ;;;
                     fetch_deepseek_response f
                 end
               else ret None
           | _ => ret None
           end)
  end.

Definition trend_analysis_header : pystr :=
  [240; 376; 8220; 352]%Z ++ ascii_str " Crypto Trend Analysis:" ++ [10; 10]%Z.

(** The [analyze_trends] branch of [run_bot]: the text it posts; [depth]
    is the number of nested [fetch_deepseek_response] calls the stack
    allows below [run_bot] (fewer than CPython's limit of 1000: the module,
    [run_bot], [requests] and [logging] frames take their share). *)
Definition analyze_trends (depth : nat) : DsM (option pystr) :=
  analysis <- fetch_deepseek_response depth ;;
  match analysis with
  | Some a => if truthy a then ret (Some (trend_analysis_header ++ a)) else ret None
  | None => ret None
  end.

(** *** CryptoPanic: [fetch_trending_topics] and [fetch_cryptopanic_topics] *)

(** A value decoded by [response.json()]. *)
Local Set Warnings "-register-all".
Inductive json :=
  | JNull
  | JBool (b : bool)
  | JNum (q : Q)
  | JStr (s : pystr)
  | JArr (l : list json)
  | JObj (kv : list (pystr * json)).

Definition pystr_eqb (a b : pystr) : bool :=
  is_prefix a b && (length a =? length b)%nat.

(** [key in j] for a string [key]. *)
Definition py_in (key : pystr) (j : json) : res bool :=
  match j with
  | JObj kv => Ok (existsb (fun p => pystr_eqb (fst p) key) kv)
  | JArr l => Ok (existsb (fun x => match x with JStr s => pystr_eqb s key | _ => false end) l)
  | JStr s => Ok (contains key s)
  | _ => Exc TypeError
  end.

(** [j[key]] for a string [key]. *)
Definition py_getitem (j : json) (key : pystr) : res json :=
  match j with
  | JObj kv =>
      match find (fun p => pystr_eqb (fst p) key) kv with
      | Some p => Ok (snd p)
      | None => Exc KeyError
      end
  | _ => Exc TypeError
  end.

(** [j.get(key, default)] *)
Definition py_get (j : json) (key : pystr) (default : json) : res json :=
  match j with
  | JObj kv =>
      match find (fun p => pystr_eqb (fst p) key) kv with
      | Some p => Ok (snd p)
      | None => Ok default
      end
  | _ => Exc OtherError
  end.

(** [for item in j] *)
Definition py_iter (j : json) : res (list json) :=
  match j with
  | JArr l => Ok l
  | JObj kv => Ok (map (fun p => JStr (fst p)) kv)
  | JStr s => Ok (map (fun c => JStr [c]) s)
  | _ => Exc TypeError
  end.

(** [[item["title"] for item in items if "title" in item]] *)
Fixpoint collect_titles (items : list json) : res (list json) :=
  match items with
  | [] => Ok []
  | item :: rest =>
      rbind (py_in (ascii_str "title") item) (fun b =>
        if b then
          rbind (py_getitem item (ascii_str "title")) (fun v =>
            rbind (collect_titles rest) (fun vs => Ok (v :: vs)))
        else collect_titles rest)
  end.

(** The body of [fetch_trending_topics] once [response.json()] is decoded:
    [None] when ["results"] is missing, else the first five titles. *)
Definition parse_topics (body : json) : res (option (list json)) :=
  rbind (py_in (ascii_str "results") body) (fun has =>
    if has then
      rbind (py_getitem body (ascii_str "results")) (fun results =>
        rbind (py_iter results) (fun items =>
          rbind (collect_titles items) (fun titles => Ok (Some (firstn 5 titles)))))
    else Ok None).

(** One [requests.get] to CryptoPanic: a connection error, or a status
    and the body decoded by [response.json()] ([None]: not JSON). *)
Inductive http_response :=
  | HttpConnectionError
  | HttpResponse (status : Z) (body : option json).

Record trend_world := mkTrendWorld {
  tr_clock : Q;
  last_trending_time : Q;
  cached_trending_topics : list json;
  cp_queue : list http_response;
  cp_calls : nat }.

#[export] Instance trend_clock_inst : Clock trend_world := {
  now_of := tr_clock;
  wait d w := mkTrendWorld (tr_clock w + d) (last_trending_time w)
                (cached_trending_topics w) (cp_queue w) (cp_calls w) }.

Definition TrM := M trend_world.

Definition get_tr : TrM trend_world := fun w => (Ok w, w).

Definition requests_get : TrM http_response :=
  fun w =>
    let '(r, rest) := match cp_queue w with
                      | [] => (HttpConnectionError, [])
                      | r :: rest => (r, rest)
                      end in
    (Ok r, mkTrendWorld (tr_clock w) (last_trending_time w)
             (cached_trending_topics w) rest (S (cp_calls w))).

Definition set_cached_trending_topics (ts : list json) : TrM unit :=
  fun w => (Ok tt, mkTrendWorld (tr_clock w) (last_trending_time w) ts
                     (cp_queue w) (cp_calls w)).

Definition set_last_trending_time (t : Q) : TrM unit :=
  fun w => (Ok tt, mkTrendWorld (tr_clock w) t (cached_trending_topics w)
                     (cp_queue w) (cp_calls w)).

(** [response.raise_for_status()] then [response.json()] *)
Definition checked_body (response : http_response) : TrM json :=
  match response with
  | HttpConnectionError => raise OtherError
  | HttpResponse status body =>
      (if bad_status status then raise (HTTPError status None) else ret tt) ;;;
      match body with
      | Some j => ret j
      | None => raise ValueError
      end
  end.

(** [fetch_trending_topics()] of [twitter_bot.py] *)
Definition fetch_trending_topics : TrM (list json) :=
  now <- time_time ;;
  w <- get_tr ;;
  if Qltb (now - last_trending_time w) 900 then ret (cached_trending_topics w)
  else
    catch
      (response <- requests_get ;;
       body <- checked_body response ;;
       topics <- lift (parse_topics body) ;;
       match topics with
       | Some ts =>
           set_cached_trending_topics ts ;;;
           t <- time_time ;;
           set_last_trending_time t ;;;
           ret ts
       | None => ret []
       end)
      (fun _ => ret []).

Section Lower.

(** [str.lower()], Unicode case mapping. *)
Variable lower : pystr -> pystr.

Definition KEYWORDS : list pystr :=
  map ascii_str ["memecoin"; "defi"; "ai"; "defiai"; "btc"; "eth"; "solana"]%string.

(** [any(keyword in item["title"].lower() for keyword in KEYWORDS)] *)
Definition relevant_title (item : json) : res (option json) :=
  rbind (py_getitem item (ascii_str "title")) (fun title =>
    match title with
    | JStr t =>
        Ok (if existsb (fun k => contains k (lower t)) KEYWORDS then Some title else None)
    | _ => Exc OtherError
    end).

Fixpoint filter_relevant (items : list json) : res (list json) :=
  match items with
  | [] => Ok []
  | item :: rest =>
      rbind (relevant_title item) (fun o =>
        rbind (filter_relevant rest) (fun vs =>
          Ok (match o with Some v => v :: vs | None => vs end)))
  end.

(** [fetch_cryptopanic_topics()] of [app.py]: the same request, no cache. *)
Definition fetch_cryptopanic_topics : TrM (list json) :=
  catch
    (response <- requests_get ;;
     body <- checked_body response ;;
     results <- lift (py_get body (ascii_str "results") (JArr [])) ;;
     items <- lift (py_iter results) ;;
     relevant_topics <- lift (filter_relevant items) ;;
     ret (firstn 5 relevant_topics))
    (fun _ => ret []).

End Lower.

(** *** Twitter limits: [check_twitter_rate_limit] *)

(** [TWITTER_RATE_LIMITS]: the ["tweets"] entry ([daily_limit],
    [remaining], [reset_time]) and the ["requests"] entry ([window],
    [limit], [remaining], [reset_time]). *)
Record twitter_world := mkTwitterWorld {
  tw_clock : Q;
  tw_slept : list Q;
  daily_limit : Z;
  tweets_remaining : Z;
  tweets_reset_time : Q;
  window : Q;
  requests_limit : Z;
  requests_remaining : Z;
  requests_reset_time : Q }.

#[export] Instance twitter_clock_inst : Clock twitter_world := {
  now_of := tw_clock;
  wait d w := mkTwitterWorld (tw_clock w + d) (tw_slept w ++ [d]) (daily_limit w)
                (tweets_remaining w) (tweets_reset_time w) (window w) (requests_limit w)
                (requests_remaining w) (requests_reset_time w) }.

Definition TwM := M twitter_world.

Definition get_tw : TwM twitter_world := fun w => (Ok w, w).

Definition set_tweets (remaining : Z) (reset_time : Q) : TwM unit :=
  fun w => (Ok tt, mkTwitterWorld (tw_clock w) (tw_slept w) (daily_limit w) remaining
                     reset_time (window w) (requests_limit w) (requests_remaining w)
                     (requests_reset_time w)).

Definition set_requests (remaining : Z) (reset_time : Q) : TwM unit :=
  fun w => (Ok tt, mkTwitterWorld (tw_clock w) (tw_slept w) (daily_limit w)
                     (tweets_remaining w) (tweets_reset_time w) (window w)
                     (requests_limit w) remaining reset_time).

(** [check_twitter_rate_limit()] *)
Definition check_twitter_rate_limit : TwM unit :=
  current_time <- time_time ;;
  l <- get_tw ;;
  (if Qle_bool (tweets_reset_time l) current_time
   then set_tweets (daily_limit l) (current_time + 86400) else ret tt) ;;;
  l <- get_tw ;;
  (if (tweets_remaining l <=? 0)%Z then
     let sleep_time := tweets_reset_time l - current_time in
     sleep sleep_time ;;;
     t <- time_time ;;
     set_tweets (daily_limit l) (t + 86400)
   else ret tt) ;;;
  l <- get_tw ;;
  (if Qle_bool (window l) (current_time - requests_reset_time l)
   then set_requests (requests_limit l) current_time else ret tt) ;;;
  l <- get_tw ;;
  if (requests_remaining l <=? 0)%Z then
    let sleep_time := window l - (current_time - requests_reset_time l) in
    sleep sleep_time ;;;
    t <- time_time ;;
    set_requests (requests_limit l) t
  else ret tt.

(** [TWITTER_RATE_LIMITS["tweets"]["remaining"] -= 1] *)
Definition count_tweet : TwM unit :=
  fun w => (Ok tt, mkTwitterWorld (tw_clock w) (tw_slept w) (daily_limit w)
                     (tweets_remaining w - 1) (tweets_reset_time w) (window w)
                     (requests_limit w) (requests_remaining w) (requests_reset_time w)).

(** The bookkeeping of [run_bot] around each [client.create_tweet]:
    [check_twitter_rate_limit()], the post, then the decrement; [n] posts
    in a row (the other actions do not touch [TWITTER_RATE_LIMITS]). *)
Fixpoint tweet_bookkeeping (n : nat) : TwM unit :=
  match n with
  | O => ret tt
  | S n' => check_twitter_rate_limit ;;; count_tweet ;;; tweet_bookkeeping n'
  end.

End TwitterBot.

(* ------------------------------------------------------------------ *)
(** ** [app.py]: images, the two posting actions and the main loop *)

Module AppBot.
Import PyStr App.
Local Open Scope Z_scope.

Definition IMAGES_FOLDER : pystr := ascii_str "images".

(** [s.endswith(suffix)] *)
Definition ends_with (suffix s : pystr) : bool := is_prefix (rev suffix) (rev s).

(** [img.endswith(('.png', '.jpg', '.jpeg'))] *)
Definition is_image (img : pystr) : bool :=
  existsb (fun e => ends_with e img) (map ascii_str [".png"; ".jpg"; ".jpeg"]%string).

(** [os.path.join(a, b)] on POSIX. *)
Definition path_join (a b : pystr) : pystr :=
  match b with
  | 47%Z :: _ => b
  | _ => if negb (truthy a) || ends_with [47%Z] a then a ++ b else a ++ [47%Z] ++ b
  end.

(** [select_random_image()]; [listing] is [os.listdir(IMAGES_FOLDER)]
    ([None]: it raised). *)
Definition select_random_image (listing : option (list pystr)) : AppM (option pystr) :=
  match listing with
  | None => ret None
  | Some names =>
      let images := map (path_join IMAGES_FOLDER) (filter is_image names) in
      match images with
      | [] => ret None
      | _ => p <- choice [] images ;; ret (Some p)
      end
  end.

Definition fedja_prompt_fren : pystr :=
  ascii_str "Create a detailed, positive, and witty paragraph about $FEDJA, a memecoin on Solana. Discuss its potential, community, and recent developments. Keep it under 280 characters. #FedjaFren".

Definition fedja_prompt_moon : pystr :=
  ascii_str "Create a detailed, positive, and witty paragraph about $FEDJA, a memecoin on Solana. Discuss its potential, community, and recent developments. Keep it under 280 characters. #FedjaMoon".

(** [post_fedja_tweet()] *)
Definition post_fedja_tweet ff gf (listing : option (list pystr)) : AppM unit :=
  image_path <- select_random_image listing ;;
  match image_path with
  | Some _ => generate_and_post_tweet ff gf fedja_prompt_fren Fedja
  | None => generate_and_post_tweet ff gf fedja_prompt_moon Fedja
  end.

(** The topics as Python strings, or [None] when one is not a string
    (["\n".join(topics)] raises [TypeError]). *)
Fixpoint json_strs (l : list TwitterBot.json) : option (list pystr) :=
  match l with
  | [] => Some []
  | TwitterBot.JStr s :: rest => option_map (cons s) (json_strs rest)
  | _ => None
  end.

Definition trending_prompt (topics_text : pystr) : pystr :=
  ascii_str "Summarize the following trending crypto topics into a single, witty, mildly sarcastic paragraph under 280 characters:"
    ++ [10%Z] ++ topics_text ++ [10%Z] ++ ascii_str "#CryptoChat".

(** [generate_and_post_tweet(get_fallback_prompt("general_crypto"),
    category="general_crypto")] *)
Definition post_general_fallback ff gf : AppM unit :=
  fb <- get_fallback_prompt ff gf GeneralCrypto ;;
  generate_and_post_tweet ff gf fb GeneralCrypto.

(** [post_regular_tweet()] once [fetch_cryptopanic_topics()] has returned
    [topics]. *)
Definition post_regular_topics ff gf (topics : list TwitterBot.json) : AppM unit :=
  match topics with
  | [] => post_general_fallback ff gf
  | _ =>
      match json_strs topics with
      | None => ret tt
      | Some strs =>
          summarized_text <- call_openai (trending_prompt (join [10%Z] strs)) ;;
          match summarized_text with
          | Some t =>
              if truthy t && (Z.of_nat (length t) <=? 280)%Z then post_tweet t
              else post_general_fallback ff gf
          | None => post_general_fallback ff gf
          end
      end
  end.

(** The whole bot: the [app.py] world, the CryptoPanic traffic and the
    sleeps of [run_bot]. *)
Record bot_world := mkBotWorld {
  app : app_world;
  cryptopanic : TwitterBot.trend_world;
  bot_slept : list Q }.

Definition BotM (A : Type) : Type := bot_world -> A * bot_world.

Definition on_app {A} (m : AppM A) : BotM A :=
  fun s => let (a, aw) := m (app s) in (a, mkBotWorld aw (cryptopanic s) (bot_slept s)).

(** [post_regular_tweet()]; [lower] is [str.lower]. *)
Definition post_regular_tweet lower ff gf : BotM unit :=
  fun s =>
    let (r, tw) := TwitterBot.fetch_cryptopanic_topics lower (cryptopanic s) in
    let s1 := mkBotWorld (app s) tw (bot_slept s) in
    match r with
    | TwitterBot.Ok topics => on_app (post_regular_topics ff gf topics) s1
    | TwitterBot.Exc _ => (tt, s1)
    end.

Definition bot_sleep (d : Q) : BotM unit :=
  fun s => (tt, mkBotWorld (app s) (cryptopanic s) (bot_slept s ++ [d])).

(** One pass of the [while True] loop of [run_bot()], [x] being
    [random.random()]; for a double [x], [x < 0.2] holds exactly when
    [x < 1/5]. *)
Definition run_bot_iteration lower ff gf listing (x : Q) : BotM unit :=
  fun s =>
    if TwitterBot.Qltb x (1 # 5) then
      let (_, s1) := on_app (post_fedja_tweet ff gf listing) s in bot_sleep (43200 # 1) s1
    else
      let (_, s1) := post_regular_tweet lower ff gf s in bot_sleep (1800 # 1) s1.

(** The first [length xs] passes of the loop. *)
Fixpoint run_bot_loop lower ff gf listing (xs : list Q) : BotM unit :=
  match xs with
  | [] => fun s => (tt, s)
  | x :: rest =>
      fun s => let (_, s1) := run_bot_iteration lower ff gf listing x s in
               run_bot_loop lower ff gf listing rest s1
  end.

End AppBot.

(* ================================================================== *)
(** * Proofs *)

(* ------------------------------------------------------------------ *)
(** ** [chunk_text] *)

Module ChunkFacts.

Lemma range_go_concat (t : pystr) (n : nat) :
  (0 < n)%nat ->
  forall fuel i, (length t - i <= fuel)%nat ->
  concat (map (fun j => firstn n (skipn j t)) (range_go fuel i (length t) n)) =
  skipn i t.
Proof.
  intros Hn fuel. induction fuel as [|f IH]; intros i Hf; simpl.
  - rewrite skipn_all2; [reflexivity | lia].
  - destruct (i <? length t)%nat eqn:E.
    + apply Nat.ltb_lt in E. simpl. rewrite IH by lia.
      rewrite <- (firstn_skipn n (skipn i t)) at 2.
      rewrite skipn_skipn, Nat.add_comm. reflexivity.
    + apply Nat.ltb_ge in E. simpl. rewrite skipn_all2; [reflexivity | lia].
Qed.

Lemma range_go_nth fuel : forall i stop n k j,
  nth_error (range_go fuel i stop n) k = Some j -> j = (i + k * n)%nat /\ (j < stop)%nat.
Proof.
  induction fuel as [|f IH]; intros i stop n k j H; simpl in H.
  - destruct k; discriminate.
  - destruct (i <? stop)%nat eqn:E; [|destruct k; discriminate].
    apply Nat.ltb_lt in E. destruct k as [|k]; simpl in H.
    + inversion H; subst. split; lia.
    + apply IH in H. destruct H as [H1 H2]. split; [subst; nia | exact H2].
Qed.

(** Claim C9: for a chunk size [n > 0], [chunk_text s n] returns a list
    of chunks whose concatenation is [s]; every chunk has at most [n]
    characters and every chunk but the last exactly [n]. *)
Theorem chunk_text_partition (s : pystr) (n : Z) (Hn : (0 < n)%Z) :
  exists chunks,
    App.chunk_text s n = Some chunks /\
    concat chunks = s /\
    (forall k c, nth_error chunks k = Some c ->
       (Z.of_nat (length c) <= n)%Z /\
       ((S k < length chunks)%nat -> Z.of_nat (length c) = n)).
Proof.
  unfold App.chunk_text, range0.
  destruct (n =? 0)%Z eqn:E0; [apply Z.eqb_eq in E0; lia|].
  destruct (n <? 0)%Z eqn:E1; [apply Z.ltb_lt in E1; lia|].
  set (m := Z.to_nat n).
  assert (Hm : (0 < m)%nat) by lia.
  eexists. split; [reflexivity|]. split.
  - rewrite range_go_concat by (assumption || lia). reflexivity.
  - intros k c Hk. rewrite nth_error_map in Hk.
    destruct (nth_error (range_go (length s) 0 (length s) m) k) as [j|] eqn:Ej;
      [|discriminate].
    simpl in Hk. inversion Hk; subst c. clear Hk.
    apply range_go_nth in Ej as [Hj Hjs].
    rewrite length_firstn, length_skipn. split; [lia|].
    intros Hlen. rewrite length_map in Hlen.
    destruct (nth_error (range_go (length s) 0 (length s) m) (S k)) as [j'|] eqn:Ej'.
    + apply range_go_nth in Ej' as [Hj' Hjs'].
      assert (Hgap : (j + m < length s)%nat) by (subst; nia). lia.
    + apply nth_error_None in Ej'. lia.
Qed.

Lemma chunk_text_partition_witness :
  (0 < 3)%Z /\
  exists chunks,
    App.chunk_text (ascii_str "abcdefg") 3 = Some chunks /\
    concat chunks = ascii_str "abcdefg" /\
    (forall k c, nth_error chunks k = Some c ->
       (Z.of_nat (length c) <= 3)%Z /\
       ((S k < length chunks)%nat -> Z.of_nat (length c) = 3%Z)).
Proof. split; [lia | apply (chunk_text_partition (ascii_str "abcdefg") 3); lia]. Defined.

End ChunkFacts.

(* ------------------------------------------------------------------ *)
(** ** The [app.py] pipeline *)

Module AppFacts.
Import App.

Lemma bind_unfold {A B} (m : AppM A) (f : A -> AppM B) w :
  bind m f w = let (a, w') := m w in f a w'.
Proof. reflexivity. Qed.

(** A fact about one run, moved to the names of its result. *)
Lemma run_step {A} (m : AppM A) (P : A -> app_world -> Prop) w x w' :
  P (fst (m w)) (snd (m w)) -> m w = (x, w') -> P x w'.
Proof. intros H E. rewrite E in H. exact H. Qed.

(** Run the next statement of a [do] block: its value is [x], the world
    after it [w'], and [E] the equation of the run. *)
Ltac next x w' E :=
  rewrite bind_unfold;
  match goal with |- context [let (_, _) := ?m ?w in _] =>
    destruct (m w) as [x w'] eqn:E; cbv beta iota
  end.


(** Every effect but [post_tweet] leaves the posted log alone; [J ps]
    says the log is still [ps], together with a caller-chosen invariant
    that survives a draw and an OpenAI call. *)
Section Frame.

Variable Inv : app_world -> Prop.
Hypothesis Inv_draw : forall w ks,
  Inv w -> Inv (mkAppWorld (responses w) ks (sent w) (posted w)).
Hypothesis Inv_call : forall w p,
  Inv w -> Inv (mkAppWorld (tl (responses w)) (draws w) (sent w ++ [p]) (posted w)).

Variable ps : list pystr.

Definition J (w : app_world) : Prop := Inv w /\ posted w = ps.

Lemma J_call p w : J w -> J (snd (call_openai p w)).
Proof.
  intros [HI HP]. unfold call_openai.
  pose proof (Inv_call w p HI) as H.
  destruct (responses w); split; simpl in *; auto.
Qed.

Lemma J_choice {A} (d : A) l w :
  J w -> J (snd (choice d l w)) /\ (l <> [] -> In (fst (choice d l w)) l).
Proof.
  intros [HI HP]. unfold choice.
  destruct (draws w) as [|k ks]; simpl; split;
    try (split; [apply Inv_draw; exact HI | exact HP]);
    (intros Hl; apply nth_In, Nat.mod_upper_bound;
     destruct l; [contradiction | discriminate]).
Qed.

Lemma J_summarize_chunks chunks : forall acc w,
  J w -> J (snd (summarize_chunks chunks acc w)).
Proof.
  induction chunks as [|c cs IH]; intros acc w Hw; simpl; [exact Hw|].
  unfold bind. pose proof (J_call (summarize_prompt c) w Hw) as H1.
  destruct (call_openai (summarize_prompt c) w) as [r w1]. apply IH. exact H1.
Qed.

(** The value shape of [summarize_text]: [None], or a non-empty string of
    at most 280 characters. *)
Definition summary_ok (r : option pystr) : Prop :=
  r = None \/ exists t, r = Some t /\ t <> [] /\ (length t <= 280)%nat.

Lemma slice_to_nonneg (t : pystr) k :
  (0 <= k)%Z -> slice_to t k = firstn (Z.to_nat k) t.
Proof.
  intros Hk. unfold slice_to. destruct (0 <=? k)%Z eqn:E; [reflexivity|].
  apply Z.leb_gt in E. lia.
Qed.

Lemma truncate_280 (t : pystr) :
  (length (if (280 <? Z.of_nat (length t))%Z then slice_to t 280 else t) <= 280)%nat.
Proof.
  destruct (280 <? Z.of_nat (length t))%Z eqn:E.
  - rewrite slice_to_nonneg, length_firstn by lia. lia.
  - apply Z.ltb_ge in E. lia.
Qed.

Lemma J_summarize_text text w :
  J w -> J (snd (summarize_text text w)) /\ summary_ok (fst (summarize_text text w)).
Proof.
  intros Hw. unfold summarize_text.
  destruct (chunk_text text 1000) as [chunks|].
  - unfold bind. pose proof (J_summarize_chunks chunks [] w Hw) as H1.
    destruct (summarize_chunks chunks [] w) as [summaries w1]. simpl in H1.
    cbv zeta.
    match goal with |- context [if ?b then slice_to ?t 280 else ?t] =>
      remember (if b then slice_to t 280 else t) as cs eqn:Ecs;
      assert (Hlen : (length cs <= 280)%nat) by (rewrite Ecs; apply truncate_280)
    end.
    clear Ecs. destruct cs as [|x xs]; simpl; split; auto; [left; reflexivity|].
    right. eexists; split; [reflexivity|]. split; [discriminate | exact Hlen].
  - simpl. split; [exact Hw | left; reflexivity].
Qed.

Lemma load_prompts_nonblank file : Forall (fun t => t <> []) (load_prompts file).
Proof.
  destruct file as [lines|]; simpl; [|constructor].
  apply Forall_forall. intros x Hx. apply in_map_iff in Hx as [l [<- Hl]].
  apply filter_In in Hl as [_ Ht]. destruct (strip l); [discriminate Ht | discriminate].
Qed.

Lemma fallback_candidates_nonblank ff gf c :
  fallback_candidates ff gf c <> [] /\ Forall (fun t => t <> []) (fallback_candidates ff gf c).
Proof.
  unfold fallback_candidates.
  destruct c.
  - pose proof (load_prompts_nonblank ff) as H. unfold FEDJA_PROMPTS.
    destruct (load_prompts ff); split; try discriminate; auto.
    constructor; [discriminate | constructor].
  - pose proof (load_prompts_nonblank gf) as H. unfold GENERAL_CRYPTO_PROMPTS.
    destruct (load_prompts gf); split; try discriminate; auto.
    constructor; [discriminate | constructor].
  - split; [discriminate | constructor; [discriminate | constructor]].
Qed.

Lemma J_fallback ff gf c w :
  J w -> J (snd (get_fallback_prompt ff gf c w)) /\
         In (fst (get_fallback_prompt ff gf c w)) (fallback_candidates ff gf c).
Proof.
  intros Hw. unfold get_fallback_prompt, fallback_candidates.
  destruct c; [unfold FEDJA_PROMPTS; destruct (load_prompts ff) eqn:E
              |unfold GENERAL_CRYPTO_PROMPTS; destruct (load_prompts gf) eqn:E|];
    try (simpl; split; [exact Hw | left; reflexivity]);
    (pose proof (J_choice [] (p :: l) w Hw) as [H1 H2];
     split; [exact H1 | apply H2; discriminate]).
Qed.

Lemma J_or_fallback ff gf c (o : option pystr) w :
  J w ->
  J (snd ((match o with
           | Some t => if truthy t then ret t else get_fallback_prompt ff gf c
           | None => get_fallback_prompt ff gf c
           end) w)) /\
  fst ((match o with
        | Some t => if truthy t then ret t else get_fallback_prompt ff gf c
        | None => get_fallback_prompt ff gf c
        end) w) <> [].
Proof.
  intros Hw.
  assert (Hfb : J (snd (get_fallback_prompt ff gf c w)) /\
                fst (get_fallback_prompt ff gf c w) <> []).
  { destruct (J_fallback ff gf c w Hw) as [H1 H2]. split; [exact H1|].
    destruct (fallback_candidates_nonblank ff gf c) as [_ H3].
    rewrite Forall_forall in H3. exact (H3 _ H2). }
  destruct o as [t|]; [|exact Hfb].
  destruct t as [|x xs]; simpl; [exact Hfb | split; [exact Hw | discriminate]].
Qed.

Lemma J_guard_fallback ff gf c t w :
  J w -> t <> [] ->
  J (snd ((if (280 <? Z.of_nat (length t))%Z then get_fallback_prompt ff gf c
           else ret t) w)) /\
  fst ((if (280 <? Z.of_nat (length t))%Z then get_fallback_prompt ff gf c
        else ret t) w) <> [].
Proof.
  intros Hw Ht. destruct (280 <? Z.of_nat (length t))%Z;
    [|cbv [ret fst snd]; split; [exact Hw | exact Ht]].
  destruct (J_fallback ff gf c w Hw) as [H1 H2]. split; [exact H1|].
  destruct (fallback_candidates_nonblank ff gf c) as [_ H3].
  rewrite Forall_forall in H3. exact (H3 _ H2).
Qed.

Lemma short_fallbacks_ok :
  Forall (fun t => t <> [] /\ (length t <= 280)%nat) short_fallbacks.
Proof. repeat constructor; (discriminate || (simpl; lia)). Qed.

Lemma J_guard_short t w :
  J w -> t <> [] ->
  J (snd ((if (280 <? Z.of_nat (length t))%Z then choice [] short_fallbacks
           else ret t) w)) /\
  fst ((if (280 <? Z.of_nat (length t))%Z then choice [] short_fallbacks
        else ret t) w) <> [] /\
  (length (fst ((if (280 <? Z.of_nat (length t))%Z then choice [] short_fallbacks
                 else ret t) w)) <= 280)%nat.
Proof.
  intros Hw Ht. destruct (280 <? Z.of_nat (length t))%Z eqn:E.
  - destruct (J_choice [] short_fallbacks w Hw) as [H1 H2].
    specialize (H2 ltac:(discriminate)).
    pose proof short_fallbacks_ok as H3. rewrite Forall_forall in H3.
    destruct (H3 _ H2) as [H4 H5]. split; [exact H1 | split; assumption].
  - apply Z.ltb_ge in E. cbv [ret fst snd].
    split; [exact Hw | split; [exact Ht | lia]].
Qed.

Lemma J_reference c t w :
  J w ->
  J (snd ((match c with
           | Fedja =>
               r <- choice Contract [Contract; Twitter] ;;
               ret (append_reference t (fedja_reference r))
           | _ => ret t
           end) w)) /\
  exists r,
    fst ((match c with
          | Fedja =>
              r <- choice Contract [Contract; Twitter] ;;
              ret (append_reference t (fedja_reference r))
          | _ => ret t
          end) w) =
    match c with
    | Fedja => append_reference t (fedja_reference r)
    | _ => t
    end.
Proof.
  intros Hw. destruct c; simpl; try (split; [exact Hw | exists Contract; reflexivity]).
  unfold bind. destruct (J_choice Contract [Contract; Twitter] w Hw) as [H1 _].
  destruct (choice Contract [Contract; Twitter] w) as [r w1]. simpl in *.
  split; [exact H1 | exists r; reflexivity].
Qed.

Lemma J_guard_fallback_in ff gf c t w :
  J w -> In t (fallback_candidates ff gf c) ->
  In (fst ((if (280 <? Z.of_nat (length t))%Z then get_fallback_prompt ff gf c
            else ret t) w)) (fallback_candidates ff gf c).
Proof.
  intros Hw Ht. destruct (280 <? Z.of_nat (length t))%Z; [|exact Ht].
  apply (J_fallback ff gf c w Hw).
Qed.

Lemma J_guard_short_in t L w :
  J w -> In t L ->
  In (fst ((if (280 <? Z.of_nat (length t))%Z then choice [] short_fallbacks
            else ret t) w)) (L ++ short_fallbacks).
Proof.
  intros Hw Ht. apply in_or_app.
  destruct (280 <? Z.of_nat (length t))%Z; [|left; exact Ht].
  right. apply (J_choice [] short_fallbacks w Hw). discriminate.
Qed.

(** One run of [generate_and_post_tweet] posts exactly one text: a
    non-empty [final_tweet] of at most 280 characters, followed for
    ["fedja"] by the $FEDJA block. *)
Lemma J_generate ff gf bp c w :
  J w ->
  exists final_tweet r,
    final_tweet <> [] /\ (length final_tweet <= 280)%nat /\
    posted (snd (generate_and_post_tweet ff gf bp c w)) =
      ps ++ [match c with
             | Fedja => append_reference final_tweet (fedja_reference r)
             | _ => final_tweet
             end].
Proof.
  intros Hw. unfold generate_and_post_tweet.
  next d w1 E1.
  pose proof (run_step _ (fun _ w' => J w') _ _ _ (J_call bp w Hw) E1) as H1.
  next dt w2 E2.
  pose proof (run_step _ (fun x w' => J w' /\ x <> []) _ _ _
                (J_or_fallback ff gf c d w1 H1) E2) as [H2 H2'].
  next st w3 E3.
  pose proof (run_step _ (fun x w' => J w' /\ summary_ok x) _ _ _
                (J_summarize_text dt w2 H2) E3) as [H3 _].
  next f1 w4 E4.
  pose proof (run_step _ (fun x w' => J w' /\ x <> []) _ _ _
                (J_or_fallback ff gf c st w3 H3) E4) as [H4 H4'].
  next f2 w5 E5.
  pose proof (run_step _ (fun x w' => J w' /\ x <> []) _ _ _
                (J_guard_fallback ff gf c f1 w4 H4 H4') E5) as [H5 H5'].
  next f3 w6 E6.
  pose proof (run_step _ (fun x w' => J w' /\ x <> [] /\ (length x <= 280)%nat) _ _ _
                (J_guard_short f2 w5 H5 H5') E6) as [H6 [H6' H6'']].
  next f4 w7 E7.
  pose proof (run_step _ (fun x w' => J w' /\ exists r, x = match c with
                                                          | Fedja => append_reference f3 (fedja_reference r)
                                                          | _ => f3
                                                          end) _ _ _
                (J_reference c f3 w6 H6) E7) as [H7 [r H7']].
  exists f3, r. split; [exact H6'|]. split; [exact H6''|].
  unfold post_tweet. cbn [posted snd]. destruct H7 as [_ ->]. rewrite <- H7'. reflexivity.
Qed.

End Frame.

(** *** All OpenAI calls fail *)

Definition all_failed (w : app_world) : Prop :=
  Forall (fun r => r = None) (responses w).

Lemma all_failed_draw w ks :
  all_failed w -> all_failed (mkAppWorld (responses w) ks (sent w) (posted w)).
Proof. exact (fun H => H). Qed.

Lemma all_failed_call w p :
  all_failed w -> all_failed (mkAppWorld (tl (responses w)) (draws w) (sent w ++ [p]) (posted w)).
Proof. unfold all_failed. simpl. destruct (responses w); [auto | inversion 1; auto]. Qed.

Lemma call_openai_failed p w : all_failed w -> fst (call_openai p w) = None.
Proof.
  unfold all_failed, call_openai. destruct (responses w) as [|r rs]; [reflexivity|].
  inversion 1; subst. reflexivity.
Qed.

Lemma summarize_chunks_failed ps chunks : forall acc w,
  J all_failed ps w -> fst (summarize_chunks chunks acc w) = acc.
Proof.
  induction chunks as [|c cs IH]; intros acc w Hw; [reflexivity|].
  simpl. unfold bind.
  pose proof (call_openai_failed (summarize_prompt c) w (proj1 Hw)) as H1.
  pose proof (J_call all_failed all_failed_call ps (summarize_prompt c) w Hw) as H2.
  destruct (call_openai (summarize_prompt c) w) as [r w1]. simpl in H1, H2. subst r.
  apply IH. exact H2.
Qed.

Lemma summarize_text_failed ps text w :
  J all_failed ps w -> fst (summarize_text text w) = None.
Proof.
  intros Hw. unfold summarize_text.
  destruct (chunk_text text 1000) as [chunks|]; [|reflexivity].
  unfold bind. pose proof (summarize_chunks_failed ps chunks [] w Hw) as H.
  destruct (summarize_chunks chunks [] w) as [summaries w1]. simpl in H. subst.
  reflexivity.
Qed.

(** *** The prompts sent to OpenAI *)

Lemma summarize_chunks_run chunks : forall acc w answers rest,
  responses w = answers ++ rest -> length answers = length chunks ->
  summarize_chunks chunks acc w =
    (acc ++ filter truthy (map (fun o => match o with Some t => strip t | None => [] end) answers),
     mkAppWorld rest (draws w) (sent w ++ map summarize_prompt chunks) (posted w)).
Proof.
  induction chunks as [|c cs IH]; intros acc w answers rest Hr Hl.
  - destruct answers; [|discriminate]. destruct w as [r d s p]. simpl in *.
    subst r. rewrite !app_nil_r. reflexivity.
  - destruct answers as [|a answers]; [discriminate|]. simpl in Hl, Hr.
    simpl. unfold bind, call_openai. rewrite Hr. cbv beta iota.
    rewrite (IH _ _ answers rest) by (simpl; auto).
    simpl. f_equal; [|rewrite <- app_assoc; reflexivity].
    destruct a as [t|]; simpl; [destruct (truthy (strip t)); simpl|];
      rewrite <- ?app_assoc; reflexivity.
Qed.

Lemma summarize_chunks_sent chunks : forall acc w,
  sent (snd (summarize_chunks chunks acc w)) = sent w ++ map summarize_prompt chunks.
Proof.
  induction chunks as [|c cs IH]; intros acc w; simpl; [rewrite app_nil_r; reflexivity|].
  unfold bind. unfold call_openai at 1.
  destruct (responses w); cbv beta iota; rewrite IH; simpl; rewrite <- app_assoc; reflexivity.
Qed.

Lemma chunk_text_nonempty text :
  text <> [] -> exists chunks, chunk_text text 1000 = Some chunks /\ chunks <> [].
Proof.
  intros Ht. unfold chunk_text, range0. simpl.
  destruct (length text) eqn:E; [destruct text; [contradiction | discriminate]|].
  simpl. eexists; split; [reflexivity | discriminate].
Qed.

End AppFacts.

(* ------------------------------------------------------------------ *)
(** ** The [$FEDJA] block and the summary bound *)

Module AppRef.
Import App AppFacts.

Lemma fedja_reference_length r : (length (fedja_reference r) <= 280)%nat.
Proof. destruct r; vm_compute; lia. Qed.

Lemma fedja_reference_nonempty r : fedja_reference r <> [].
Proof. destruct r; discriminate. Qed.

(** [append_reference] always ends in the reference and stays within 280
    characters when the reference does. *)
Lemma append_reference_shape t ref :
  (length ref <= 280)%nat ->
  exists pre, append_reference t ref = pre ++ ref /\ (length (pre ++ ref) <= 280)%nat.
Proof.
  intros Hr. unfold append_reference.
  destruct (Z.of_nat (length t) + Z.of_nat (length ref) <=? 280)%Z eqn:E.
  - apply Z.leb_le in E. exists t. split; [reflexivity|]. rewrite length_app. lia.
  - eexists. split; [reflexivity|].
    rewrite slice_to_nonneg by lia. rewrite length_app, length_firstn. lia.
Qed.

(** When body and reference do not fit together, the body is cut to
    [280 - len(reference)] characters and the result has exactly 280. *)
Lemma append_reference_truncates body suffix :
  (length suffix <= 280)%nat -> (280 < length body + length suffix)%nat ->
  append_reference body suffix = firstn (280 - length suffix) body ++ suffix /\
  length (append_reference body suffix) = 280%nat.
Proof.
  intros Hs Hb. unfold append_reference.
  destruct (Z.of_nat (length body) + Z.of_nat (length suffix) <=? 280)%Z eqn:E;
    [apply Z.leb_le in E; lia|].
  rewrite slice_to_nonneg by lia.
  replace (Z.to_nat (280 - Z.of_nat (length suffix))) with (280 - length suffix)%nat by lia.
  split; [reflexivity|]. rewrite length_app, length_firstn. lia.
Qed.

(** The trivial invariant survives draws and calls. *)
Lemma True_call (w : app_world) (p : pystr) : True -> True.
Proof. intros _. exact I. Qed.

Lemma True_draw (w : app_world) (ks : list nat) : True -> True.
Proof. intros _. exact I. Qed.

Lemma candidates_nonblank_in ff gf c t :
  In t (fallback_candidates ff gf c ++ short_fallbacks) -> t <> [].
Proof.
  intros H. apply in_app_or in H as [H|H].
  - destruct (fallback_candidates_nonblank ff gf c) as [_ H1].
    rewrite Forall_forall in H1. exact (H1 _ H).
  - pose proof short_fallbacks_ok as H1. rewrite Forall_forall in H1.
    exact (proj1 (H1 _ H)).
Qed.

Lemma summarize_text_sent text w chunks :
  chunk_text text 1000 = Some chunks ->
  sent (snd (summarize_text text w)) = sent w ++ map summarize_prompt chunks.
Proof.
  intros Hc. unfold summarize_text. rewrite Hc. unfold bind.
  pose proof (summarize_chunks_sent chunks [] w) as H.
  destruct (summarize_chunks chunks [] w) as [summaries w1]. simpl in H.
  cbv zeta. destruct (truthy _); exact H.
Qed.

(** The prompt log as an invariant: draws leave it alone. *)
Lemma sent_draw (S0 : list pystr) (w : app_world) (ks : list nat) :
  sent w = S0 -> sent (mkAppWorld (responses w) ks (sent w) (posted w)) = S0.
Proof. exact (fun H => H). Qed.

End AppRef.

(* ------------------------------------------------------------------ *)
(** ** Claims on [app.py] *)

Module AppClaims.
Import App AppFacts AppRef.

(** Claim C1 (as amended): every run of [generate_and_post_tweet] in
    [app.py] posts exactly one body, which is non-empty and has at most
    280 characters, whatever the OpenAI answers (of any length) and draws
    are.  The posting branches of [run_bot] in [twitter_bot.py] have no
    such bound (see [run_bot_unbounded]). *)
Theorem generate_and_post_tweet_bounded ff gf bp c w :
  exists body,
    posted (snd (generate_and_post_tweet ff gf bp c w)) = posted w ++ [body] /\
    body <> [] /\ (length body <= 280)%nat.
Proof.
  destruct (J_generate (fun _ => True) True_draw True_call (posted w) ff gf bp c w
              (conj I eq_refl)) as [f [r [Hne [Hlen Hp]]]].
  rewrite Hp. destruct c.
  - destruct (append_reference_shape f (fedja_reference r) (fedja_reference_length r))
      as [pre [-> Hl]].
    exists (pre ++ fedja_reference r). split; [reflexivity|]. split; [|exact Hl].
    destruct pre; [apply fedja_reference_nonempty | discriminate].
  - exists f. auto.
  - exists f. auto.
Qed.

(** Claim C2: every ["fedja"] run posts a body ending in one of the two
    $FEDJA references, within 280 characters; when body and suffix do not
    fit, the body is cut to [280 - len(suffix)] characters before the
    suffix, giving exactly 280 characters, so a 270-character body with a
    25-character suffix gives [body[:255] + suffix]. *)
Theorem fedja_suffix_kept :
  (forall ff gf bp w, exists pre r,
     posted (snd (generate_and_post_tweet ff gf bp Fedja w)) =
       posted w ++ [pre ++ fedja_reference r] /\
     (length (pre ++ fedja_reference r) <= 280)%nat) /\
  (forall body suffix,
     (length suffix <= 280)%nat -> (280 < length body + length suffix)%nat ->
     append_reference body suffix = firstn (280 - length suffix) body ++ suffix /\
     length (append_reference body suffix) = 280%nat) /\
  (forall body suffix,
     length body = 270%nat -> length suffix = 25%nat ->
     append_reference body suffix = firstn 255 body ++ suffix /\
     length (append_reference body suffix) = 280%nat).
Proof.
  split; [|split].
  - intros ff gf bp w.
    destruct (J_generate (fun _ => True) True_draw True_call (posted w) ff gf bp Fedja w
                (conj I eq_refl)) as [f [r [_ [_ Hp]]]].
    destruct (append_reference_shape f (fedja_reference r) (fedja_reference_length r))
      as [pre [Ha Hl]].
    exists pre, r. rewrite Hp, Ha. split; [reflexivity | exact Hl].
  - exact append_reference_truncates.
  - intros body suffix Hb Hs.
    destruct (append_reference_truncates body suffix) as [H1 H2]; [lia | lia |].
    rewrite Hs in H1. split; assumption.
Qed.

Lemma fedja_suffix_kept_witness :
  append_reference (repeat 97%Z 270) (repeat 98%Z 25) =
    firstn 255 (repeat 97%Z 270) ++ repeat 98%Z 25 /\
  length (append_reference (repeat 97%Z 270) (repeat 98%Z 25)) = 280%nat.
Proof.
  apply (proj2 (proj2 fedja_suffix_kept)); rewrite repeat_length; reflexivity.
Defined.

(** Claim C3: when every OpenAI call fails, the fallback pool of the
    category is non-empty and the run still posts one body built on a
    non-empty fallback text [f] drawn from that pool (or from the short
    fallbacks), followed for ["fedja"] by a $FEDJA reference. *)
Theorem all_failed_posts_fallback ff gf bp c w :
  all_failed w ->
  fallback_candidates ff gf c <> [] /\
  exists f r,
    In f (fallback_candidates ff gf c ++ short_fallbacks) /\ f <> [] /\
    posted (snd (generate_and_post_tweet ff gf bp c w)) =
      posted w ++ [match c with
                   | Fedja => append_reference f (fedja_reference r)
                   | _ => f
                   end].
Proof.
  intros Hf. split; [apply fallback_candidates_nonblank|].
  set (ps := posted w). set (L := fallback_candidates ff gf c).
  assert (Hw : J all_failed ps w) by (split; [exact Hf | reflexivity]).
  assert (HL : forall t, In t L -> t <> []).
  { intros t Ht. apply (candidates_nonblank_in ff gf c). apply in_or_app. left. exact Ht. }
  unfold generate_and_post_tweet.
  next d w1 E1.
  pose proof (run_step _ (fun x w' => J all_failed ps w' /\ x = None) _ _ _
                (conj (J_call all_failed all_failed_call ps bp w Hw)
                      (call_openai_failed bp w Hf)) E1) as [H1 ->].
  next dt w2 E2.
  pose proof (run_step _ (fun x w' => J all_failed ps w' /\ In x L) _ _ _
                (J_fallback all_failed all_failed_draw ps ff gf c w1 H1) E2) as [H2 _].
  next st w3 E3.
  pose proof (run_step _ (fun x w' => J all_failed ps w' /\ x = None) _ _ _
                (conj (proj1 (J_summarize_text all_failed all_failed_call ps dt w2 H2))
                      (summarize_text_failed ps dt w2 H2)) E3) as [H3 ->].
  next f1 w4 E4.
  pose proof (run_step _ (fun x w' => J all_failed ps w' /\ In x L) _ _ _
                (J_fallback all_failed all_failed_draw ps ff gf c w3 H3) E4) as [H4 H4'].
  next f2 w5 E5.
  pose proof (run_step _ (fun x w' => J all_failed ps w' /\ In x L) _ _ _
                (conj (proj1 (J_guard_fallback all_failed all_failed_draw ps ff gf c f1 w4 H4
                                (HL f1 H4')))
                      (J_guard_fallback_in all_failed all_failed_draw ps ff gf c f1 w4 H4 H4'))
                E5) as [H5 H5'].
  next f3 w6 E6.
  pose proof (run_step _ (fun x w' => J all_failed ps w' /\ In x (L ++ short_fallbacks)) _ _ _
                (conj (proj1 (J_guard_short all_failed all_failed_draw ps f2 w5 H5 (HL f2 H5')))
                      (J_guard_short_in all_failed all_failed_draw ps f2 L w5 H5 H5'))
                E6) as [H6 H6'].
  next f4 w7 E7.
  pose proof (run_step _ (fun x w' => J all_failed ps w' /\
                                      exists r, x = match c with
                                                    | Fedja => append_reference f3 (fedja_reference r)
                                                    | _ => f3
                                                    end) _ _ _
                (J_reference all_failed all_failed_draw ps c f3 w6 H6) E7) as [H7 [r H7']].
  exists f3, r. split; [exact H6'|]. split; [exact (candidates_nonblank_in ff gf c f3 H6')|].
  unfold post_tweet. cbn [posted snd]. destruct H7 as [_ ->]. rewrite <- H7'. reflexivity.
Qed.

Lemma all_failed_posts_fallback_witness :
  all_failed (mkAppWorld [None; None] [1%nat] [] []) /\
  fallback_candidates None None Fedja <> [] /\
  exists f r,
    In f (fallback_candidates None None Fedja ++ short_fallbacks) /\ f <> [] /\
    posted (snd (generate_and_post_tweet None None (ascii_str "gm") Fedja
                   (mkAppWorld [None; None] [1%nat] [] []))) =
      [] ++ [append_reference f (fedja_reference r)].
Proof.
  assert (H : all_failed (mkAppWorld [None; None] [1%nat] [] [])) by
    (repeat constructor).
  split; [exact H|].
  exact (all_failed_posts_fallback None None (ascii_str "gm") Fedja
           (mkAppWorld [None; None] [1%nat] [] []) H).
Defined.

(** Claim C10: [summarize_text] returns [None] or a non-empty string of
    at most 280 characters, never the empty string. *)
Theorem summarize_text_result text w :
  fst (summarize_text text w) = None \/
  exists t, fst (summarize_text text w) = Some t /\ t <> [] /\ (length t <= 280)%nat.
Proof.
  exact (proj2 (J_summarize_text (fun _ => True) True_call (posted w) text w (conj I eq_refl))).
Qed.

(** Claim C4 (as amended): [summarize_text] sends one summarization prompt
    per 1000-character chunk, joins the non-empty stripped answers with
    single spaces and cuts the result to 280 characters ([None] if it is
    empty); [generate_and_post_tweet] runs it on every generated text, of
    any length: after the prompt [bp] it sends exactly the chunk prompts of
    the generated text and nothing else. *)
Theorem summarization_unconditional :
  (forall text w answers rest chunks,
     chunk_text text 1000 = Some chunks ->
     responses w = answers ++ rest -> length answers = length chunks ->
     summarize_text text w =
       (let combined :=
          join (ascii_str " ")
            (filter truthy
               (map (fun o => match o with Some t => strip t | None => [] end) answers)) in
        let combined :=
          if (280 <? Z.of_nat (length combined))%Z then firstn 280 combined else combined in
        if truthy combined then Some combined else None,
        mkAppWorld rest (draws w) (sent w ++ map summarize_prompt chunks) (posted w))) /\
  (forall ff gf bp c w d rest chunks,
     responses w = Some d :: rest -> truthy (strip d) = true ->
     chunk_text (strip d) 1000 = Some chunks ->
     chunks <> [] /\
     sent (snd (generate_and_post_tweet ff gf bp c w)) =
       sent w ++ bp :: map summarize_prompt chunks).
Proof.
  split.
  - intros text w answers rest chunks Hc Hr Hl.
    unfold summarize_text. rewrite Hc. unfold bind.
    rewrite (summarize_chunks_run chunks [] w answers rest Hr Hl).
    rewrite app_nil_l. cbv zeta.
    destruct (280 <? _)%Z eqn:E; [rewrite slice_to_nonneg by lia|];
      destruct (truthy _); reflexivity.
  - intros ff gf bp c w d rest chunks Hr Ht Hc. split.
    { destruct (chunk_text_nonempty (strip d)) as [ch [Hch Hne]];
        [intros E; rewrite E in Ht; discriminate|].
      rewrite Hc in Hch. inversion Hch; subst. exact Hne. }
    unfold generate_and_post_tweet.
    next d' w1 E1.
    unfold call_openai in E1. rewrite Hr in E1. inversion E1; subst d' w1. clear E1.
    cbv iota beta. rewrite Ht. cbv iota beta.
    next dt w2 E2. cbv [ret] in E2. inversion E2; subst dt w2. clear E2.
    next st w3 E3.
    pose proof (run_step _ (fun _ w' => sent w' = sent w ++ bp :: map summarize_prompt chunks)
                  _ _ _ (eq_trans (summarize_text_sent (strip d)
                                     (mkAppWorld rest (draws w) (sent w ++ [bp]) (posted w))
                                     chunks Hc)
                                  (eq_sym (app_assoc (sent w) [bp] _))) E3) as H3.
    set (S3 := sent w ++ bp :: map summarize_prompt chunks) in *.
    set (Inv := fun w' : app_world => sent w' = S3).
    set (ps := posted w3).
    assert (Hw3 : J Inv ps w3) by (split; [exact H3 | reflexivity]).
    next f1 w4 E4.
    pose proof (run_step _ (fun x w' => J Inv ps w' /\ x <> []) _ _ _
                  (J_or_fallback Inv (sent_draw S3) ps ff gf c st w3 Hw3) E4) as [H4 H4'].
    next f2 w5 E5.
    pose proof (run_step _ (fun x w' => J Inv ps w' /\ x <> []) _ _ _
                  (J_guard_fallback Inv (sent_draw S3) ps ff gf c f1 w4 H4 H4') E5) as [H5 H5'].
    next f3 w6 E6.
    pose proof (run_step _ (fun _ w' => J Inv ps w') _ _ _
                  (proj1 (J_guard_short Inv (sent_draw S3) ps f2 w5 H5 H5')) E6) as H6.
    next f4 w7 E7.
    pose proof (run_step _ (fun _ w' => J Inv ps w') _ _ _
                  (proj1 (J_reference Inv (sent_draw S3) ps c f3 w6 H6)) E7) as [H7 _].
    exact H7.
Qed.

Lemma summarization_unconditional_witness :
  chunk_text (ascii_str "hello") 1000 = Some [ascii_str "hello"] /\
  summarize_text (ascii_str "hello") (mkAppWorld [Some (ascii_str " gm ")] [] [] []) =
    (Some (ascii_str "gm"),
     mkAppWorld [] [] [summarize_prompt (ascii_str "hello")] []).
Proof.
  split; [reflexivity|].
  rewrite (proj1 summarization_unconditional (ascii_str "hello")
             (mkAppWorld [Some (ascii_str " gm ")] [] [] [])
             [Some (ascii_str " gm ")] [] [ascii_str "hello"] eq_refl eq_refl eq_refl).
  reflexivity.
Defined.

(** The generated text ["gm"] has 2 characters, far below 280, yet a
    summarization prompt is sent for it. *)
Lemma summarization_unconditional_counterexample :
  let w := mkAppWorld [Some (ascii_str "gm"); Some (ascii_str "gm")] [] [] [] in
  let w' := snd (generate_and_post_tweet None None (ascii_str "Write a tweet") GeneralCrypto w) in
  sent w' = [ascii_str "Write a tweet"; summarize_prompt (ascii_str "gm")] /\
  posted w' = [ascii_str "gm"].
Proof. vm_compute. split; reflexivity. Qed.

End AppClaims.

Module TwitterFacts.
Import TwitterBot.
Local Open Scope Q_scope.

Lemma model_eqb_refl m : model_eqb m m = true.
Proof. destruct m; reflexivity. Qed.

Lemma Qltb_true a b : Qltb a b = true <-> a < b.
Proof.
  unfold Qltb. rewrite negb_true_iff. split; intros H.
  - apply Qnot_le_lt. intros H'. apply Qle_bool_iff in H'. congruence.
  - destruct (Qle_bool b a) eqn:E; [apply Qle_bool_iff in E; lra | reflexivity].
Qed.

Lemma Qltb_false a b : Qltb a b = false <-> b <= a.
Proof.
  unfold Qltb. rewrite negb_false_iff. apply Qle_bool_iff.
Qed.

Lemma Qle_bool_false a b : Qle_bool a b = false -> b < a.
Proof.
  intros H. apply Qnot_le_lt. intros H'. apply Qle_bool_iff in H'. congruence.
Qed.

Lemma sleep_ok {S} `{Clock S} d s : 0 <= d -> sleep d s = (Ok tt, wait d s).
Proof.
  intros Hd. unfold sleep. destruct (Qltb d 0) eqn:E; [apply Qltb_true in E; lra | reflexivity].
Qed.

(** Boolean tests of the code as arithmetic facts. *)
Ltac qfacts :=
  repeat match goal with
  | H : Qle_bool _ _ = true |- _ => apply Qle_bool_iff in H
  | H : Qle_bool _ _ = false |- _ => apply Qle_bool_false in H
  | H : Qltb _ _ = true |- _ => apply Qltb_true in H
  | H : Qltb _ _ = false |- _ => apply Qltb_false in H
  | H : (_ <=? _)%Z = true |- _ => apply Z.leb_le in H
  | H : (_ <=? _)%Z = false |- _ => apply Z.leb_gt in H
  end.

Ltac oai_simpl :=
  cbv beta iota zeta delta [bind ret set_usage get_usage time_time];
  cbn [oai_clock OPENAI_RATE_LIMITS oai_queue oai_calls oai_slept tpm rpm tokens_used
       requests_used last_reset reset_usage now_of wait oai_clock_inst];
  rewrite ?model_eqb_refl;
  cbn [oai_clock OPENAI_RATE_LIMITS oai_queue oai_calls oai_slept tpm rpm tokens_used
       requests_used last_reset reset_usage now_of wait oai_clock_inst].

Ltac oai_run :=
  repeat (oai_simpl; qfacts; first
    [ rewrite sleep_ok by (oai_simpl; lra)
    | match goal with |- context [if (?a <=? ?b)%Z then _ else _] =>
        destruct (a <=? b)%Z eqn:? end
    | match goal with |- context [if Qle_bool ?a ?b then _ else _] =>
        destruct (Qle_bool a b) eqn:? end ]).

Lemma check_ok m w :
  exists w', check_openai_rate_limit m w = (Ok tt, w') /\
    oai_queue w' = oai_queue w /\ oai_calls w' = oai_calls w.
Proof.
  unfold check_openai_rate_limit. oai_run.
  all: eexists; split; [reflexivity | split; reflexivity].
Qed.

Ltac oai_close :=
  try (eexists; split; [reflexivity|]; cbn; rewrite ?model_eqb_refl; cbn;
       repeat split; reflexivity);
  try reflexivity;
  qfacts; try (exfalso; lia); try (exfalso; lra).

(** Inside the window and below both limits: nothing happens. *)
Lemma check_idle m w :
  oai_clock w - last_reset (OPENAI_RATE_LIMITS w m) < 60 ->
  (tokens_used (OPENAI_RATE_LIMITS w m) < tpm (OPENAI_RATE_LIMITS w m))%Z ->
  (requests_used (OPENAI_RATE_LIMITS w m) < rpm (OPENAI_RATE_LIMITS w m))%Z ->
  check_openai_rate_limit m w = (Ok tt, w).
Proof.
  intros H1 H2 H3. unfold check_openai_rate_limit. oai_run. all: oai_close.
Qed.

(** The window has expired: the counters restart at the current time, with
    no wait. *)
Lemma check_expired m w :
  60 <= oai_clock w - last_reset (OPENAI_RATE_LIMITS w m) ->
  (0 < tpm (OPENAI_RATE_LIMITS w m))%Z -> (0 < rpm (OPENAI_RATE_LIMITS w m))%Z ->
  exists w', check_openai_rate_limit m w = (Ok tt, w') /\
    OPENAI_RATE_LIMITS w' m = reset_usage (OPENAI_RATE_LIMITS w m) (oai_clock w) /\
    oai_slept w' = oai_slept w /\ oai_clock w' = oai_clock w.
Proof.
  intros H1 H2 H3. unfold check_openai_rate_limit. oai_run. all: oai_close.
Qed.

(** The request limit is reached inside the window: one wait up to the
    end of the window, then the counters restart. *)
Lemma check_exhausted m w :
  last_reset (OPENAI_RATE_LIMITS w m) <= oai_clock w ->
  oai_clock w - last_reset (OPENAI_RATE_LIMITS w m) < 60 ->
  (tokens_used (OPENAI_RATE_LIMITS w m) < tpm (OPENAI_RATE_LIMITS w m))%Z ->
  (rpm (OPENAI_RATE_LIMITS w m) <= requests_used (OPENAI_RATE_LIMITS w m))%Z ->
  let s := 60 - (oai_clock w - last_reset (OPENAI_RATE_LIMITS w m)) in
  exists w', check_openai_rate_limit m w = (Ok tt, w') /\
    oai_slept w' = oai_slept w ++ [s] /\ oai_clock w' = oai_clock w + s /\
    OPENAI_RATE_LIMITS w' m = reset_usage (OPENAI_RATE_LIMITS w m) (oai_clock w + s).
Proof.
  intros H0 H1 H2 H3 s. unfold check_openai_rate_limit. oai_run. all: oai_close.
Qed.

(** The token limit is reached inside the window: the token branch waits
    up to the end of the window and restarts the counters, so the request
    branch, whatever [requests_used] was, has nothing left to do. *)
Lemma check_tokens_spent m w :
  last_reset (OPENAI_RATE_LIMITS w m) <= oai_clock w ->
  oai_clock w - last_reset (OPENAI_RATE_LIMITS w m) < 60 ->
  (tpm (OPENAI_RATE_LIMITS w m) <= tokens_used (OPENAI_RATE_LIMITS w m))%Z ->
  (0 < rpm (OPENAI_RATE_LIMITS w m))%Z ->
  let s := 60 - (oai_clock w - last_reset (OPENAI_RATE_LIMITS w m)) in
  exists w', check_openai_rate_limit m w = (Ok tt, w') /\
    oai_slept w' = oai_slept w ++ [s] /\ oai_clock w' = oai_clock w + s /\
    OPENAI_RATE_LIMITS w' m = reset_usage (OPENAI_RATE_LIMITS w m) (oai_clock w + s).
Proof.
  intros H0 H1 H2 H3 s. unfold check_openai_rate_limit. oai_run. all: oai_close.
Qed.

(** Either limit reached inside the window: one wait up to its end. *)
Lemma check_limit_reached m w :
  last_reset (OPENAI_RATE_LIMITS w m) <= oai_clock w ->
  oai_clock w - last_reset (OPENAI_RATE_LIMITS w m) < 60 ->
  (0 < rpm (OPENAI_RATE_LIMITS w m))%Z ->
  (rpm (OPENAI_RATE_LIMITS w m) <= requests_used (OPENAI_RATE_LIMITS w m))%Z ->
  let s := 60 - (oai_clock w - last_reset (OPENAI_RATE_LIMITS w m)) in
  exists w', check_openai_rate_limit m w = (Ok tt, w') /\
    oai_slept w' = oai_slept w ++ [s] /\ oai_clock w' = oai_clock w + s /\
    OPENAI_RATE_LIMITS w' m = reset_usage (OPENAI_RATE_LIMITS w m) (oai_clock w + s).
Proof.
  intros H0 H1 H2 H3.
  destruct (Z.lt_ge_cases (tokens_used (OPENAI_RATE_LIMITS w m)) (tpm (OPENAI_RATE_LIMITS w m))).
  - exact (check_exhausted m w H0 H1 H H3).
  - exact (check_tokens_spent m w H0 H1 H H2).
Qed.

Lemma inject_Z_nonneg z : (0 <= z)%Z -> 0 <= inject_Z z.
Proof. intros H. change 0 with (inject_Z 0). rewrite <- Zle_Qle. exact H. Qed.






Ltac ds_simpl :=
  cbv beta iota zeta delta [bind ret time_time get_ds catch post_request raise
                            set_last_request_time set_retry_after bad_status];
  cbn [ds_clock ds_slept last_request_time retry_after ds_queue ds_calls now_of wait
       ds_clock_inst].


Ltac tr_simpl :=
  cbv beta iota zeta delta [bind ret time_time get_tr catch requests_get raise lift
                            checked_body set_cached_trending_topics set_last_trending_time];
  cbn [tr_clock last_trending_time cached_trending_topics cp_queue cp_calls now_of wait
       trend_clock_inst].

(** A fetch inside the 900 s window answers from the cache, without a
    request. *)
Lemma trending_cached w :
  tr_clock w - last_trending_time w < 900 ->
  fetch_trending_topics w = (Ok (cached_trending_topics w), w).
Proof.
  intros H. unfold fetch_trending_topics. tr_simpl.
  replace (Qltb _ _) with true by (symmetry; apply Qltb_true; exact H). reflexivity.
Qed.

(** A fetch after the window with a good answer refreshes the cache. *)
Lemma trending_refresh w status j ts rest :
  900 <= tr_clock w - last_trending_time w ->
  cp_queue w = HttpResponse status (Some j) :: rest -> bad_status status = false ->
  parse_topics j = Ok (Some ts) ->
  fetch_trending_topics w =
    (Ok ts, mkTrendWorld (tr_clock w) (tr_clock w) ts rest (S (cp_calls w))).
Proof.
  intros H Hq Hb Hp. unfold fetch_trending_topics. tr_simpl.
  replace (Qltb _ _) with false by (symmetry; apply Qltb_false; exact H).
  rewrite Hq. tr_simpl. rewrite Hb. tr_simpl. rewrite Hp. reflexivity.
Qed.

(** The fetcher of [app.py] issues one request on every call. *)
Lemma cryptopanic_requests lower w :
  cp_calls (snd (fetch_cryptopanic_topics lower w)) = S (cp_calls w).
Proof.
  unfold fetch_cryptopanic_topics. tr_simpl.
  destruct (cp_queue w) as [|r rs]; [reflexivity|].
  destruct r as [|status body]; [reflexivity|]. tr_simpl.
  destruct (bad_status status); [reflexivity|]. tr_simpl.
  destruct body as [j|]; [|reflexivity]. tr_simpl.
  destruct (py_get j _ _) as [results|e]; [|reflexivity]. tr_simpl.
  destruct (py_iter results) as [items|e]; [|reflexivity]. tr_simpl.
  destruct (filter_relevant lower items); reflexivity.
Qed.

End TwitterFacts.
(* ------------------------------------------------------------------ *)
(** ** Claims on [twitter_bot.py] *)

Module TwitterClaims.
Import TwitterBot TwitterFacts.
Local Open Scope Q_scope.

(** The two posting branches of [run_bot] post a provider answer of 300
    characters as it is: the regular tweet has 300 characters and the trend
    analysis 329 (its one DeepSeek request needs no nested call). *)
Lemma run_bot_unbounded :
  fst (regular_tweet (mkOaiWorld 0 [] (initial_openai_limits 0)
                        [OaiCompletion (repeat 97%Z 300) 10] 0)) =
    Ok (Some (repeat 97%Z 300)) /\
  fst (analyze_trends 1 (mkDsWorld 0 [] 0 0 [DsHttp 200 None None (Some (repeat 97%Z 300))] 0)) =
    Ok (Some (trend_analysis_header ++ repeat 97%Z 300)) /\
  (280 < length (repeat 97%Z 300))%nat /\
  (280 < length (trend_analysis_header ++ repeat 97%Z 300))%nat.
Proof.
  split; [vm_compute; reflexivity|]. split; [vm_compute; reflexivity|].
  split; apply Nat.ltb_lt; vm_compute; reflexivity.
Qed.

(** Claim C5: in [check_openai_rate_limit], with positive limits, the
    counters of a model restart at zero when [now - last_reset >= 60];
    inside the window and below both limits nothing changes; when the
    request limit is reached inside the window, whether or not the token
    limit is too, there is exactly one wait [s] with [0 < s <= 60], which
    ends at [last_reset + 60], after which the counters are zero and a new
    check at that time leaves them so. *)
Theorem openai_rate_window m w :
  let u := OPENAI_RATE_LIMITS w m in
  (0 < tpm u)%Z -> (0 < rpm u)%Z ->
  (60 <= oai_clock w - last_reset u ->
     exists w', check_openai_rate_limit m w = (Ok tt, w') /\
       OPENAI_RATE_LIMITS w' m = reset_usage u (oai_clock w) /\
       oai_slept w' = oai_slept w) /\
  (oai_clock w - last_reset u < 60 ->
   (tokens_used u < tpm u)%Z -> (requests_used u < rpm u)%Z ->
     check_openai_rate_limit m w = (Ok tt, w)) /\
  (last_reset u <= oai_clock w -> oai_clock w - last_reset u < 60 ->
   (rpm u <= requests_used u)%Z ->
     exists w' s, check_openai_rate_limit m w = (Ok tt, w') /\
       oai_slept w' = oai_slept w ++ [s] /\ 0 < s <= 60 /\
       oai_clock w' - last_reset u == 60 /\
       OPENAI_RATE_LIMITS w' m = reset_usage u (oai_clock w') /\
       requests_used (OPENAI_RATE_LIMITS w' m) = 0%Z /\
       check_openai_rate_limit m w' = (Ok tt, w')).
Proof.
  intros u Ht Hr. split; [|split].
  - intros H. destruct (check_expired m w H Ht Hr) as [w' [E [Hu [Hs _]]]].
    exists w'. auto.
  - exact (check_idle m w).
  - intros H0 H1 H3.
    destruct (check_limit_reached m w H0 H1 Hr H3) as [w' [E [Hs [Hc Hu]]]].
    exists w', (60 - (oai_clock w - last_reset u)).
    split; [exact E|]. split; [exact Hs|]. split; [subst u; lra|].
    split; [rewrite Hc; subst u; lra|].
    split; [rewrite Hc; exact Hu|]. split; [rewrite Hu; reflexivity|].
    apply check_idle; rewrite Hu; cbn; [rewrite Hc; lra | exact Ht | exact Hr].
Qed.

Lemma openai_rate_window_witness :
  exists w' s,
    check_openai_rate_limit Gpt35Turbo
      (mkOaiWorld 10 [] (fun _ => mkUsage 40000 3 40000 3 0) [] 0) = (Ok tt, w') /\
    oai_slept w' = [] ++ [s] /\ 0 < s <= 60 /\
    oai_clock w' - 0 == 60 /\
    OPENAI_RATE_LIMITS w' Gpt35Turbo = reset_usage (mkUsage 40000 3 40000 3 0) (oai_clock w') /\
    requests_used (OPENAI_RATE_LIMITS w' Gpt35Turbo) = 0%Z /\
    check_openai_rate_limit Gpt35Turbo w' = (Ok tt, w').
Proof.
  refine (proj2 (proj2 (openai_rate_window Gpt35Turbo
                          (mkOaiWorld 10 [] (fun _ => mkUsage 40000 3 40000 3 0) [] 0) _ _)) _ _ _);
    cbn; (lia || lra).
Defined.




(** Claim C6 (as amended): [fetch_trending_topics] of [twitter_bot.py]
    answers from its cache within 900 s of the last refresh: after a fetch
    that refreshed the cache with [ts], every call in the next 900 s
    returns [ts] and makes no request.  [fetch_cryptopanic_topics] of
    [app.py] has no cache: every call makes a request. *)
Theorem trending_cache :
  (forall w, tr_clock w - last_trending_time w < 900 ->
     fetch_trending_topics w = (Ok (cached_trending_topics w), w)) /\
  (forall w status j ts rest,
     900 <= tr_clock w - last_trending_time w ->
     cp_queue w = HttpResponse status (Some j) :: rest -> bad_status status = false ->
     parse_topics j = Ok (Some ts) ->
     exists w1, fetch_trending_topics w = (Ok ts, w1) /\ cp_calls w1 = S (cp_calls w) /\
       forall d, 0 <= d < 900 -> fetch_trending_topics (wait d w1) = (Ok ts, wait d w1)) /\
  (forall lower w, cp_calls (snd (fetch_cryptopanic_topics lower w)) = S (cp_calls w)).
Proof.
  split; [exact trending_cached|]. split; [|exact cryptopanic_requests].
  intros w status j ts rest H Hq Hb Hp.
  rewrite (trending_refresh w status j ts rest H Hq Hb Hp).
  eexists. split; [reflexivity|]. split; [reflexivity|].
  intros d Hd. apply trending_cached. cbn. lra.
Qed.

Lemma trending_cache_witness :
  exists w1,
    fetch_trending_topics
      (mkTrendWorld 1000 0 []
         [HttpResponse 200 (Some (JObj [(ascii_str "results",
                                         JArr [JObj [(ascii_str "title", JStr (ascii_str "btc"))]])]))]
         0) = (Ok [JStr (ascii_str "btc")], w1) /\
    cp_calls w1 = 1%nat /\
    forall d, 0 <= d < 900 ->
      fetch_trending_topics (wait d w1) = (Ok [JStr (ascii_str "btc")], wait d w1).
Proof.
  refine (proj1 (proj2 trending_cache)
            (mkTrendWorld 1000 0 []
               [HttpResponse 200 (Some (JObj [(ascii_str "results",
                                               JArr [JObj [(ascii_str "title", JStr (ascii_str "btc"))]])]))]
               0)
            200%Z
            (JObj [(ascii_str "results", JArr [JObj [(ascii_str "title", JStr (ascii_str "btc"))]])])
            [JStr (ascii_str "btc")] [] _ eq_refl eq_refl _);
    [cbn; lra | vm_compute; reflexivity].
Defined.

(** [fetch_cryptopanic_topics] called twice at the same moment makes two
    requests. *)
Lemma trending_cache_counterexample :
  let r := HttpResponse 200 (Some (JObj [(ascii_str "results",
                                          JArr [JObj [(ascii_str "title", JStr (ascii_str "btc"))]])])) in
  let w := mkTrendWorld 1000 0 [] [r; r] 0 in
  let w1 := snd (fetch_cryptopanic_topics (fun t => t) w) in
  fst (fetch_cryptopanic_topics (fun t => t) w) = Ok [JStr (ascii_str "btc")] /\
  fst (fetch_cryptopanic_topics (fun t => t) w1) = Ok [JStr (ascii_str "btc")] /\
  cp_calls (snd (fetch_cryptopanic_topics (fun t => t) w1)) = 2%nat.
Proof. vm_compute. repeat split; reflexivity. Qed.

(** Claim C7: when [fetch_trending_topics] makes a request (the 900 s
    window has passed) and the request fails, the status is an error, the
    body is not JSON, or it does not parse to a list of topics, the call
    returns [[]] and leaves [cached_trending_topics] and
    [last_trending_time] unchanged. *)
Theorem trending_failure_keeps_cache w :
  900 <= tr_clock w - last_trending_time w ->
  (forall status j ts, hd_error (cp_queue w) = Some (HttpResponse status (Some j)) ->
     bad_status status = false -> parse_topics j <> Ok (Some ts)) ->
  fst (fetch_trending_topics w) = Ok [] /\
  cached_trending_topics (snd (fetch_trending_topics w)) = cached_trending_topics w /\
  last_trending_time (snd (fetch_trending_topics w)) = last_trending_time w.
Proof.
  intros H Hf. unfold fetch_trending_topics. tr_simpl.
  replace (Qltb _ _) with false by (symmetry; apply Qltb_false; exact H).
  destruct (cp_queue w) as [|r rs] eqn:Eq; [repeat split; reflexivity|].
  destruct r as [|status body]; [repeat split; reflexivity|]. tr_simpl.
  destruct (bad_status status) eqn:Eb; [repeat split; reflexivity|]. tr_simpl.
  destruct body as [j|]; [|repeat split; reflexivity]. tr_simpl.
  destruct (parse_topics j) as [[ts|]|e] eqn:Ep; [|repeat split; reflexivity..].
  exfalso. exact (Hf status j ts eq_refl Eb Ep).
Qed.

Lemma trending_failure_keeps_cache_witness :
  fst (fetch_trending_topics (mkTrendWorld 1000 0 [JStr (ascii_str "old")] [HttpConnectionError] 0))
    = Ok [] /\
  cached_trending_topics
    (snd (fetch_trending_topics (mkTrendWorld 1000 0 [JStr (ascii_str "old")] [HttpConnectionError] 0)))
    = [JStr (ascii_str "old")] /\
  last_trending_time
    (snd (fetch_trending_topics (mkTrendWorld 1000 0 [JStr (ascii_str "old")] [HttpConnectionError] 0)))
    = 0.
Proof.
  apply (trending_failure_keeps_cache
           (mkTrendWorld 1000 0 [JStr (ascii_str "old")] [HttpConnectionError] 0)).
  - cbn. lra.
  - intros status j ts Hh. discriminate.
Defined.

End TwitterClaims.

Module TwitterExtra.
Import TwitterBot TwitterFacts.
Local Open Scope Q_scope.

Ltac tw_simpl :=
  cbv beta iota zeta delta [bind ret time_time get_tw set_tweets set_requests];
  cbn [tw_clock tw_slept daily_limit tweets_remaining tweets_reset_time window
       requests_limit requests_remaining requests_reset_time now_of wait twitter_clock_inst].

Ltac tw_run :=
  repeat (tw_simpl; qfacts; first
    [ rewrite sleep_ok by (tw_simpl; lra)
    | match goal with |- context [if (?a <=? ?b)%Z then _ else _] =>
        destruct (a <=? b)%Z eqn:? end
    | match goal with |- context [if Qle_bool ?a ?b then _ else _] =>
        destruct (Qle_bool a b) eqn:? end ]); tw_simpl.

Lemma check_twitter_facts w :
  (0 < daily_limit w)%Z -> (0 < requests_limit w)%Z ->
  exists w' ds, check_twitter_rate_limit w = (Ok tt, w') /\
    tw_slept w' = tw_slept w ++ ds /\ Forall (Qlt 0) ds /\
    (0 < tweets_remaining w')%Z /\ (0 < requests_remaining w')%Z /\
    daily_limit w' = daily_limit w /\ requests_limit w' = requests_limit w /\
    window w' = window w.
Proof.
  intros H1 H2. unfold check_twitter_rate_limit. tw_run.
  all: try (do 2 eexists; split; [reflexivity|]; cbn;
            split; [ first [ exact (eq_sym (app_nil_r _)) | reflexivity
                           | rewrite <- app_assoc; reflexivity ]
                   | repeat split; repeat constructor; cbn; try lia; lra ]).
  all: qfacts; try lia; try lra.
Qed.

(** With positive daily and request limits, [check_twitter_rate_limit]
    never raises; every wait it makes is positive, and afterwards both the
    tweet and the request counters are positive. *)
Lemma twitter_limit_ok w :
  (0 < daily_limit w)%Z -> (0 < requests_limit w)%Z ->
  exists w' ds, check_twitter_rate_limit w = (Ok tt, w') /\
    tw_slept w' = tw_slept w ++ ds /\ Forall (Qlt 0) ds /\
    (0 < tweets_remaining w')%Z /\ (0 < requests_remaining w')%Z.
Proof.
  intros H1 H2. destruct (check_twitter_facts w H1 H2) as [w' [ds [E [Hs [Hd [Ht [Hr _]]]]]]].
  exists w', ds. auto.
Qed.

(** The check-then-decrement bookkeeping of [run_bot] never raises and
    never drives the daily tweet counter below zero, however many tweets
    are posted. *)
Lemma tweet_bookkeeping_nonneg n : forall w,
  (0 < daily_limit w)%Z -> (0 < requests_limit w)%Z -> (0 <= tweets_remaining w)%Z ->
  exists w', tweet_bookkeeping n w = (Ok tt, w') /\ (0 <= tweets_remaining w')%Z.
Proof.
  induction n as [|n IH]; intros w H1 H2 H3; [exists w; split; [reflexivity | exact H3]|].
  cbn [tweet_bookkeeping]. unfold bind at 1.
  destruct (check_twitter_facts w H1 H2) as [w1 [ds [E [_ [_ [Ht [_ [Hd [Hr _]]]]]]]]].
  rewrite E. unfold bind at 1, count_tweet.
  apply IH; cbn; lia.
Qed.

(** Daily budget spent before its reset time, requests fine: one wait
    until the reset time, then a full daily budget valid for 86400 s more;
    the request counters are left alone. *)
Lemma twitter_daily_wait w :
  tw_clock w < tweets_reset_time w -> (tweets_remaining w <= 0)%Z ->
  tw_clock w - requests_reset_time w < window w -> (0 < requests_remaining w)%Z ->
  exists w', check_twitter_rate_limit w = (Ok tt, w') /\
    tw_slept w' = tw_slept w ++ [tweets_reset_time w - tw_clock w] /\
    tw_clock w' == tweets_reset_time w /\
    tweets_remaining w' = daily_limit w /\
    tweets_reset_time w' == tweets_reset_time w + 86400 /\
    requests_remaining w' = requests_remaining w /\
    requests_reset_time w' = requests_reset_time w.
Proof.
  intros H1 H2 H3 H4. unfold check_twitter_rate_limit. tw_run.
  all: try (eexists; split; [reflexivity|]; cbn; repeat split; try reflexivity; lra).
  all: qfacts; try lia; try lra.
Qed.

(** Both budgets spent inside their windows: the request wait is computed
    from the time read before the daily wait, so the two waits add up and
    the request window restarts at the end of both. *)
Lemma twitter_both_wait w :
  tw_clock w < tweets_reset_time w -> (tweets_remaining w <= 0)%Z ->
  tw_clock w - requests_reset_time w < window w -> (requests_remaining w <= 0)%Z ->
  exists w', check_twitter_rate_limit w = (Ok tt, w') /\
    tw_slept w' = tw_slept w ++ [tweets_reset_time w - tw_clock w;
                                 window w - (tw_clock w - requests_reset_time w)] /\
    tw_clock w' == tweets_reset_time w + window w - (tw_clock w - requests_reset_time w) /\
    requests_reset_time w' = tw_clock w' /\
    requests_remaining w' = requests_limit w /\ tweets_remaining w' = daily_limit w.
Proof.
  intros H1 H2 H3 H4. unfold check_twitter_rate_limit. tw_run.
  all: try (eexists; split; [reflexivity|]; cbn; repeat split; try reflexivity;
            try (rewrite <- app_assoc; reflexivity); lra).
  all: qfacts; try lia; try lra.
Qed.

(** [check_openai_rate_limit m] never raises and leaves the usage of every
    other model unchanged. *)
Lemma check_frame m w :
  exists w', check_openai_rate_limit m w = (Ok tt, w') /\
    forall m', m' <> m -> OPENAI_RATE_LIMITS w' m' = OPENAI_RATE_LIMITS w m'.
Proof.
  unfold check_openai_rate_limit. oai_run.
  all: try (eexists; split; [reflexivity|]; intros m' Hm; cbn;
            destruct m, m'; cbn; congruence).
  all: qfacts; try lia; try lra.
Qed.

Lemma backoff_total m : forall f r w, exists o w',
  backoff_loop f r m w = (Ok o, w') /\
  (oai_calls w <= oai_calls w' <= oai_calls w + f)%nat /\
  ((r < 5)%nat -> (0 < f)%nat -> (oai_calls w < oai_calls w')%nat).
Proof.
  induction f as [|f IH]; intros r w.
  - exists None, w. cbn. split; [reflexivity | lia].
  - cbn [backoff_loop]. destruct (r <? 5)%nat eqn:Er.
    2:{ exists None, w. apply Nat.ltb_ge in Er. split; [reflexivity | lia]. }
    unfold catch, bind at 1.
    destruct (check_ok m w) as [w1 [E1 [Q1 C1]]]. rewrite E1.
    unfold bind at 1, chat_completion. rewrite Q1.
    destruct (oai_queue w) as [|o rest].
    + cbn. eexists _, _. split; [reflexivity | cbn; lia].
    + destruct o as [| |c t].
      * cbn -[Z.pow Z.min backoff_loop Nat.ltb]. unfold bind at 1.
        rewrite sleep_ok.
        2:{ apply inject_Z_nonneg. pose proof (Z.pow_pos_nonneg 2 (Z.of_nat (S r))). lia. }
        match goal with |- context [backoff_loop f (S r) m ?w2] =>
          destruct (IH (S r) w2) as [o [w' [E [Hc _]]]] end.
        rewrite E. exists o, w'. cbn in Hc. split; [reflexivity | lia].
      * cbn. eexists _, _. split; [reflexivity | cbn; lia].
      * cbn. eexists _, _. split; [reflexivity | cbn; lia].
Qed.

(** [call_openai_with_backoff] never raises and makes between one and five
    API calls. *)
Lemma call_openai_with_backoff_total m w : exists o w',
  call_openai_with_backoff m w = (Ok o, w') /\
  (S (oai_calls w) <= oai_calls w' <= oai_calls w + 5)%nat.
Proof.
  destruct (backoff_total m 5 0 w) as [o [w' [E [H1 H2]]]].
  exists o, w'. split; [exact E | specialize (H2 ltac:(lia) ltac:(lia)); lia].
Qed.

(** A first call that succeeds below the limits returns the stripped
    content after one call and no wait, and adds its tokens and one
    request to the model's usage. *)
Lemma call_openai_first_success m w c t rest :
  oai_clock w - last_reset (OPENAI_RATE_LIMITS w m) < 60 ->
  (tokens_used (OPENAI_RATE_LIMITS w m) < tpm (OPENAI_RATE_LIMITS w m))%Z ->
  (requests_used (OPENAI_RATE_LIMITS w m) < rpm (OPENAI_RATE_LIMITS w m))%Z ->
  oai_queue w = OaiCompletion c t :: rest ->
  exists w', call_openai_with_backoff m w = (Ok (Some (strip c)), w') /\
    oai_calls w' = S (oai_calls w) /\ oai_queue w' = rest /\ oai_slept w' = oai_slept w /\
    let u := OPENAI_RATE_LIMITS w m in
    OPENAI_RATE_LIMITS w' m =
      mkUsage (tpm u) (rpm u) (tokens_used u + t) (requests_used u + 1) (last_reset u).
Proof.
  intros H1 H2 H3 Hq. unfold call_openai_with_backoff. cbn [backoff_loop Nat.ltb Nat.leb].
  unfold catch, bind at 1. rewrite (check_idle m w H1 H2 H3).
  unfold bind at 1, chat_completion. rewrite Hq. cbn. rewrite ?model_eqb_refl.
  eexists. split; [reflexivity|]. cbn. rewrite ?model_eqb_refl. repeat split; reflexivity.
Qed.

(** An error other than [RateLimitError] gives [None] after a single call:
    no retry. *)
Lemma call_openai_failure_no_retry m w rest :
  oai_queue w = OaiFailure :: rest ->
  exists w', call_openai_with_backoff m w = (Ok None, w') /\
    oai_calls w' = S (oai_calls w) /\ oai_queue w' = rest.
Proof.
  intros Hq. unfold call_openai_with_backoff. cbn [backoff_loop Nat.ltb Nat.leb].
  unfold catch, bind at 1.
  destruct (check_ok m w) as [w1 [E1 [Q1 C1]]]. rewrite E1.
  unfold bind at 1, chat_completion. rewrite Q1, Hq. cbn.
  eexists. split; [reflexivity | cbn; split; [congruence | reflexivity]].
Qed.

Lemma filter_relevant_ok lower : forall items ts,
  filter_relevant lower items = Ok ts ->
  (length ts <= length items)%nat /\
  Forall (fun j => exists t, j = JStr t /\
            existsb (fun k => contains k (lower t)) KEYWORDS = true) ts.
Proof.
  induction items as [|item rest IH]; intros ts H; cbn [filter_relevant] in H.
  - inversion H; subst. split; [reflexivity | constructor].
  - unfold relevant_title in H.
    destruct (py_getitem item _) as [title|e]; cbn [rbind] in H; [|discriminate].
    destruct title as [| | |t| |]; cbn [rbind] in H; try discriminate.
    destruct (filter_relevant lower rest) as [vs|e] eqn:Ev; cbn [rbind] in H; [|discriminate].
    destruct (IH vs eq_refl) as [Hl Hf].
    destruct (existsb (fun k => contains k (lower t)) KEYWORDS) eqn:Ek;
      inversion H; subst; cbn [length].
    + split; [lia|]. constructor; [eauto | exact Hf].
    + split; [lia | exact Hf].
Qed.

Lemma cryptopanic_facts lower w : exists ts w',
  fetch_cryptopanic_topics lower w = (Ok ts, w') /\ (length ts <= 5)%nat /\
  Forall (fun j => exists t, j = JStr t /\
            existsb (fun k => contains k (lower t)) KEYWORDS = true) ts.
Proof.
  unfold fetch_cryptopanic_topics. tr_simpl.
  destruct (cp_queue w) as [|r rs]; [do 2 eexists; split; [reflexivity | split; [cbn; lia | constructor]]|].
  destruct r as [|status body]; [do 2 eexists; split; [reflexivity | split; [cbn; lia | constructor]]|].
  tr_simpl.
  destruct (bad_status status); [do 2 eexists; split; [reflexivity | split; [cbn; lia | constructor]]|].
  tr_simpl.
  destruct body as [j|]; [|do 2 eexists; split; [reflexivity | split; [cbn; lia | constructor]]].
  tr_simpl.
  destruct (py_get j _ _) as [results|e]; [|do 2 eexists; split; [reflexivity | split; [cbn; lia | constructor]]].
  tr_simpl.
  destruct (py_iter results) as [items|e]; [|do 2 eexists; split; [reflexivity | split; [cbn; lia | constructor]]].
  tr_simpl.
  destruct (filter_relevant lower items) as [ts|e] eqn:Ef;
    [|do 2 eexists; split; [reflexivity | split; [cbn; lia | constructor]]].
  destruct (filter_relevant_ok lower items ts Ef) as [_ Hf].
  do 2 eexists. split; [reflexivity|]. split.
  - rewrite length_firstn. lia.
  - clear -Hf. revert Hf. generalize 5%nat. induction ts as [|x ts IH]; intros n Hf;
      destruct n; cbn; try constructor; inversion Hf; subst; auto.
Qed.

(** [fetch_cryptopanic_topics] never raises and returns at most five
    topics, each a string title whose lower-cased form contains a keyword. *)
Lemma cryptopanic_topics_ok lower w : exists ts w',
  fetch_cryptopanic_topics lower w = (Ok ts, w') /\ (length ts <= 5)%nat /\
  Forall (fun j => exists t, j = JStr t /\
            existsb (fun k => contains k (lower t)) KEYWORDS = true) ts.
Proof. exact (cryptopanic_facts lower w). Qed.

(** [fetch_trending_topics] never raises; with at most five cached topics
    it returns at most five and keeps at most five cached. *)
Lemma trending_bounded w :
  (length (cached_trending_topics w) <= 5)%nat ->
  exists ts w', fetch_trending_topics w = (Ok ts, w') /\ (length ts <= 5)%nat /\
    (length (cached_trending_topics w') <= 5)%nat.
Proof.
  intros Hc. unfold fetch_trending_topics. tr_simpl.
  destruct (Qltb _ _); [do 2 eexists; split; [reflexivity | split; assumption]|].
  destruct (cp_queue w) as [|r rs]; [do 2 eexists; split; [reflexivity | cbn; split; [lia | exact Hc]]|].
  destruct r as [|status body]; [do 2 eexists; split; [reflexivity | cbn; split; [lia | exact Hc]]|].
  tr_simpl.
  destruct (bad_status status); [do 2 eexists; split; [reflexivity | cbn; split; [lia | exact Hc]]|].
  tr_simpl.
  destruct body as [j|]; [|do 2 eexists; split; [reflexivity | cbn; split; [lia | exact Hc]]].
  tr_simpl.
  destruct (parse_topics j) as [o|e] eqn:Ep; [|do 2 eexists; split; [reflexivity | cbn; split; [lia | exact Hc]]].
  tr_simpl.
  destruct o as [ts|]; [|do 2 eexists; split; [reflexivity | cbn; split; [lia | exact Hc]]].
  tr_simpl.
  assert (Hl : (length ts <= 5)%nat).
  { unfold parse_topics in Ep.
    destruct (py_in _ j) as [b|e]; cbn [rbind] in Ep; [|discriminate]. destruct b; [|discriminate].
    destruct (py_getitem j _); cbn [rbind] in Ep; [|discriminate].
    destruct (py_iter _); cbn [rbind] in Ep; [|discriminate].
    destruct (collect_titles _) as [titles|e]; cbn [rbind] in Ep; [|discriminate].
    assert (ts = firstn 5 titles) as -> by congruence. rewrite length_firstn. lia. }
  do 2 eexists. split; [reflexivity | cbn; split; exact Hl].
Qed.


(** A connection error or an error status other than 429 gives [None]
    after one request, with no retry and [DEEPSEEK_RATE_LIMIT] unchanged. *)
Lemma ds_no_retry f w r rest :
  ds_queue w = r :: rest ->
  (r = DsConnectionError \/
   exists status hdr rate content, r = DsHttp status hdr rate content /\
     bad_status status = true /\ status <> 429%Z) ->
  exists w', fetch_deepseek_response (S f) w = (Ok None, w') /\
    ds_calls w' = S (ds_calls w) /\ ds_queue w' = rest /\
    last_request_time w' = last_request_time w /\ retry_after w' = retry_after w.
Proof.
  intros Hq Hr. cbn [fetch_deepseek_response]. ds_simpl.
  destruct (Qltb _ _) eqn:B; qfacts; [rewrite sleep_ok by lra|]; ds_simpl;
    rewrite Hq; ds_simpl; cbn [now_of wait ds_clock_inst ds_clock ds_slept last_request_time
                               retry_after ds_queue ds_calls].
  all: destruct Hr as [-> | [status [hdr [rate [content [-> [Hb H429]]]]]]]; [|unfold bad_status in Hb; rewrite Hb];
    ds_simpl.
  all: try (eexists; split; [reflexivity | cbn; repeat split; reflexivity]).
  all: replace (status =? 429)%Z with false by (symmetry; apply Z.eqb_neq; exact H429).
  all: eexists; split; [reflexivity | cbn; repeat split; reflexivity].
Qed.


Ltac ds_simpl_in H :=
  cbv beta iota zeta delta [bind ret time_time get_ds catch post_request raise sleep
                            set_last_request_time set_retry_after bad_status] in H;
  cbn [ds_clock ds_slept last_request_time retry_after ds_queue ds_calls now_of wait
       ds_clock_inst fst snd] in H.

(** A successful [fetch_deepseek_response] records a request time no
    earlier than the call's start and at least [retry_after] after the
    previous recorded request, through any 429 retries. *)
Lemma ds_spacing : forall f w o w',
  fetch_deepseek_response f w = (Ok (Some o), w') ->
  ds_clock w <= last_request_time w' /\
  last_request_time w + retry_after w <= last_request_time w'.
Proof.
  induction f as [|f IH]; intros w o w' H; [discriminate|].
  cbn [fetch_deepseek_response] in H. ds_simpl_in H.
  repeat (ds_simpl_in H; qfacts; match type of H with
    | context [if ?b then _ else _] => destruct b eqn:?
    | context [match ds_queue ?x with _ => _ end] => destruct (ds_queue x) eqn:?
    | context [match ?x with DsConnectionError => _ | DsHttp _ _ _ _ => _ end] => destruct x eqn:?
    | context [match ?x with Some _ => _ | None => _ end] =>
        lazymatch x with fetch_deepseek_response _ _ => fail | _ => destruct x eqn:? end
    | context [match ?x with (_, _) => _ end] => is_var x; destruct x eqn:?
    end).
  all: try discriminate.
  all: try (apply IH in H; cbn in H; qfacts; split; lra).
  all: try (injection H as _ <-; cbn; split; lra).
Qed.


(** After a successful first answer with rate headers, the request time is
    recorded; no requests left sets [retry_after] to the time until the
    reset, otherwise [retry_after] is at least one second. *)
Lemma ds_rate_headers f w status hdr remaining reset c rest :
  ds_queue w = DsHttp status hdr (Some (Some remaining, Some reset)) (Some c) :: rest ->
  bad_status status = false ->
  exists w', fetch_deepseek_response (S f) w = (Ok (Some (strip c)), w') /\
    ds_calls w' = S (ds_calls w) /\ last_request_time w' = ds_clock w' /\
    (remaining = 0%Z -> retry_after w' = inject_Z reset - last_request_time w') /\
    (remaining <> 0%Z -> 1 <= retry_after w').
Proof.
  intros Hq Hb. unfold bad_status in Hb. cbn [fetch_deepseek_response]. ds_simpl.
  destruct (Qltb _ _) eqn:B; qfacts; [rewrite sleep_ok by lra|]; ds_simpl;
    rewrite Hq; ds_simpl; rewrite Hb; ds_simpl; cbn [now_of wait ds_clock_inst ds_clock ds_slept
      last_request_time retry_after ds_queue ds_calls].
  all: destruct (remaining =? 0)%Z eqn:Er; [apply Z.eqb_eq in Er | apply Z.eqb_neq in Er].
  all: try (destruct (Qltb 1 _) eqn:E1; qfacts).
  all: eexists; split; [reflexivity|]; cbn; (split; [reflexivity|]); (split; [reflexivity|]);
    split; intros; (congruence || lra).
Qed.

(** Rate headers that [int()] rejects: the request time is recorded first,
    then the [ValueError] is caught and the call gives [None] after one
    request, with no retry and [retry_after] unchanged. *)
Lemma ds_bad_rate_headers f w status hdr rh sh content rest :
  ds_queue w = DsHttp status hdr (Some (rh, sh)) content :: rest ->
  bad_status status = false -> (rh = None \/ sh = None) ->
  exists w', fetch_deepseek_response (S f) w = (Ok None, w') /\
    ds_calls w' = S (ds_calls w) /\ ds_queue w' = rest /\
    last_request_time w' = ds_clock w' /\ retry_after w' = retry_after w.
Proof.
  intros Hq Hb Hr. unfold bad_status in Hb. cbn [fetch_deepseek_response]. ds_simpl.
  destruct (Qltb _ _) eqn:B; qfacts; [rewrite sleep_ok by lra|]; ds_simpl;
    rewrite Hq; ds_simpl; rewrite Hb; ds_simpl.
  all: destruct Hr as [-> | ->]; [|destruct rh]; ds_simpl.
  all: eexists; split; [reflexivity|]; cbn; repeat split; reflexivity.
Qed.

(** Witnesses at concrete states. *)

Lemma twitter_limit_ok_witness :
  exists w' ds, check_twitter_rate_limit (mkTwitterWorld 1000 [] 50 0 2000 900 500 0 500) = (Ok tt, w') /\
    tw_slept w' = [] ++ ds /\ Forall (Qlt 0) ds /\
    (0 < tweets_remaining w')%Z /\ (0 < requests_remaining w')%Z.
Proof. apply (twitter_limit_ok (mkTwitterWorld 1000 [] 50 0 2000 900 500 0 500)); reflexivity. Defined.

Lemma twitter_daily_wait_witness :
  exists w', check_twitter_rate_limit (mkTwitterWorld 1000 [] 50 0 2000 900 500 10 500) = (Ok tt, w') /\
    tw_slept w' = [] ++ [2000 - 1000] /\ tw_clock w' == 2000 /\
    tweets_remaining w' = 50%Z /\ tweets_reset_time w' == 2000 + 86400 /\
    requests_remaining w' = 10%Z /\ requests_reset_time w' = 500.
Proof.
  apply (twitter_daily_wait (mkTwitterWorld 1000 [] 50 0 2000 900 500 10 500));
    vm_compute; first [reflexivity | intros H; discriminate H].
Defined.

Lemma twitter_both_wait_witness :
  exists w', check_twitter_rate_limit (mkTwitterWorld 1000 [] 50 0 2000 900 500 0 500) = (Ok tt, w') /\
    tw_slept w' = [] ++ [2000 - 1000; 900 - (1000 - 500)] /\
    tw_clock w' == 2000 + 900 - (1000 - 500) /\
    requests_reset_time w' = tw_clock w' /\
    requests_remaining w' = 500%Z /\ tweets_remaining w' = 50%Z.
Proof.
  apply (twitter_both_wait (mkTwitterWorld 1000 [] 50 0 2000 900 500 0 500));
    vm_compute; first [reflexivity | intros H; discriminate H].
Defined.

Lemma tweet_bookkeeping_nonneg_witness :
  exists w', tweet_bookkeeping 60 (mkTwitterWorld 0 [] 50 50 0 900 500 500 0) = (Ok tt, w') /\
    (0 <= tweets_remaining w')%Z.
Proof.
  apply (tweet_bookkeeping_nonneg 60 (mkTwitterWorld 0 [] 50 50 0 900 500 500 0));
    vm_compute; first [reflexivity | intros H; discriminate H].
Defined.

Lemma check_frame_witness :
  OPENAI_RATE_LIMITS
    (snd (check_openai_rate_limit Gpt35Turbo (mkOaiWorld 10 [] (fun _ => mkUsage 40000 3 0 3 0) [] 0)))
    Gpt4oMini = mkUsage 40000 3 0 3 0.
Proof.
  destruct (check_frame Gpt35Turbo (mkOaiWorld 10 [] (fun _ => mkUsage 40000 3 0 3 0) [] 0))
    as [w' [E H]].
  rewrite E. apply (H Gpt4oMini). discriminate.
Defined.

Lemma call_openai_first_success_witness :
  exists w', call_openai_with_backoff Gpt35Turbo
      (mkOaiWorld 10 [] (fun _ => mkUsage 40000 3 0 0 0) [OaiCompletion (ascii_str " hi ") 7] 0)
      = (Ok (Some (strip (ascii_str " hi "))), w') /\
    oai_calls w' = 1%nat /\ oai_queue w' = [] /\ oai_slept w' = [] /\
    OPENAI_RATE_LIMITS w' Gpt35Turbo = mkUsage 40000 3 (0 + 7) (0 + 1) 0.
Proof.
  apply (call_openai_first_success Gpt35Turbo
           (mkOaiWorld 10 [] (fun _ => mkUsage 40000 3 0 0 0) [OaiCompletion (ascii_str " hi ") 7] 0)
           (ascii_str " hi ") 7 []);
    vm_compute; reflexivity.
Defined.

Lemma call_openai_failure_no_retry_witness :
  exists w', call_openai_with_backoff Gpt4oMini
      (mkOaiWorld 10 [] (fun _ => mkUsage 60000 3 0 0 0) [OaiFailure; OaiRateLimited] 0)
      = (Ok None, w') /\ oai_calls w' = 1%nat /\ oai_queue w' = [OaiRateLimited].
Proof.
  apply (call_openai_failure_no_retry Gpt4oMini
           (mkOaiWorld 10 [] (fun _ => mkUsage 60000 3 0 0 0) [OaiFailure; OaiRateLimited] 0)
           [OaiRateLimited]).
  reflexivity.
Defined.

Lemma ds_no_retry_witness :
  exists w', fetch_deepseek_response 1 (mkDsWorld 100 [] 0 1 [DsHttp 500 None None None] 0)
      = (Ok None, w') /\ ds_calls w' = 1%nat /\ ds_queue w' = [] /\
    last_request_time w' = 0 /\ retry_after w' = 1.
Proof.
  apply (ds_no_retry 0 (mkDsWorld 100 [] 0 1 [DsHttp 500 None None None] 0)
           (DsHttp 500 None None None) []); [reflexivity|].
  right. exists 500%Z, None, None, None. split; [reflexivity|]. split; [reflexivity | discriminate].
Defined.

Lemma ds_spacing_witness :
  ds_clock (mkDsWorld 100 [] 99 5 [DsHttp 200 None None (Some (ascii_str "ok"))] 0)
    <= last_request_time (snd (fetch_deepseek_response 3
         (mkDsWorld 100 [] 99 5 [DsHttp 200 None None (Some (ascii_str "ok"))] 0))) /\
  99 + 5 <= last_request_time (snd (fetch_deepseek_response 3
         (mkDsWorld 100 [] 99 5 [DsHttp 200 None None (Some (ascii_str "ok"))] 0))).
Proof.
  apply (ds_spacing 3 (mkDsWorld 100 [] 99 5 [DsHttp 200 None None (Some (ascii_str "ok"))] 0)
           (ascii_str "ok")).
  vm_compute. reflexivity.
Defined.

Lemma ds_rate_headers_witness :
  exists w', fetch_deepseek_response 1
      (mkDsWorld 100 [] 0 1 [DsHttp 200 None (Some (Some 0%Z, Some 160%Z)) (Some (ascii_str "ok"))] 0)
      = (Ok (Some (strip (ascii_str "ok"))), w') /\
    ds_calls w' = 1%nat /\ last_request_time w' = ds_clock w' /\
    (0%Z = 0%Z -> retry_after w' = inject_Z 160 - last_request_time w') /\
    (0%Z <> 0%Z -> 1 <= retry_after w').
Proof.
  apply (ds_rate_headers 0
           (mkDsWorld 100 [] 0 1 [DsHttp 200 None (Some (Some 0%Z, Some 160%Z)) (Some (ascii_str "ok"))] 0)
           200 None 0 160 (ascii_str "ok") []); reflexivity.
Defined.

Lemma ds_bad_rate_headers_witness :
  exists w', fetch_deepseek_response 1
      (mkDsWorld 100 [] 0 1 [DsHttp 200 None (Some (Some 3%Z, None)) (Some (ascii_str "ok"))] 0)
      = (Ok None, w') /\
    ds_calls w' = 1%nat /\ ds_queue w' = [] /\ last_request_time w' = ds_clock w' /\
    retry_after w' = 1.
Proof.
  apply (ds_bad_rate_headers 0
           (mkDsWorld 100 [] 0 1 [DsHttp 200 None (Some (Some 3%Z, None)) (Some (ascii_str "ok"))] 0)
           200 None (Some 3%Z) None (Some (ascii_str "ok")) []); [reflexivity | reflexivity | right; reflexivity].
Defined.

Lemma trending_bounded_witness :
  exists ts w', fetch_trending_topics
      (mkTrendWorld 1000 0 [] [HttpResponse 200 (Some (JObj [(ascii_str "results",
         JArr (repeat (JObj [(ascii_str "title", JStr (ascii_str "BTC"))]) 7))]))] 0)
      = (Ok ts, w') /\ (length ts <= 5)%nat /\ (length (cached_trending_topics w') <= 5)%nat.
Proof.
  apply (trending_bounded
           (mkTrendWorld 1000 0 [] [HttpResponse 200 (Some (JObj [(ascii_str "results",
              JArr (repeat (JObj [(ascii_str "title", JStr (ascii_str "BTC"))]) 7))]))] 0)).
  cbn. lia.
Defined.

End TwitterExtra.

Module AppBotFacts.
Import PyStr App AppFacts AppRef AppBot.

Lemma select_frame listing w :
  responses (snd (select_random_image listing w)) = responses w /\
  sent (snd (select_random_image listing w)) = sent w /\
  posted (snd (select_random_image listing w)) = posted w.
Proof.
  destruct listing as [names|]; [|split; [|split]; reflexivity].
  unfold select_random_image.
  destruct (map _ (filter _ _)) as [|i is]; [split; [|split]; reflexivity|].
  unfold bind, choice, ret. destruct (draws w); (split; [|split]); reflexivity.
Qed.

(** [select_random_image] returns a path [images/<name>] for a listed
    [.png], [.jpg] or [.jpeg] file, or [None] exactly when the folder cannot
    be listed or holds no such file. *)
Lemma select_random_image_spec listing w :
  match fst (select_random_image listing w) with
  | Some p => exists names img, listing = Some names /\ In img names /\
                is_image img = true /\ p = path_join IMAGES_FOLDER img
  | None => listing = None \/ exists names, listing = Some names /\ filter is_image names = []
  end.
Proof.
  destruct listing as [names|]; [|left; reflexivity].
  unfold select_random_image.
  destruct (filter is_image names) as [|i is] eqn:F; [right; exists names; auto|].
  cbn [map]. unfold bind, ret.
  pose proof (proj2 (J_choice (fun _ => True) True_draw (posted w) []
                       (map (path_join IMAGES_FOLDER) (i :: is)) w (conj I eq_refl))
                ltac:(discriminate)) as Hin.
  destruct (choice [] _ w) as [p w1]. cbn [fst] in Hin |- *.
  rewrite <- F in Hin. apply in_map_iff in Hin as [img [<- Himg]].
  apply filter_In in Himg as [Hn Hi]. exists names, img. auto.
Qed.


(** The prompt log only grows. *)
Definition sent_from (S0 : list pystr) (w : app_world) : Prop := exists r, sent w = S0 ++ r.

Lemma sent_from_draw S0 w ks :
  sent_from S0 w -> sent_from S0 (mkAppWorld (responses w) ks (sent w) (posted w)).
Proof. exact (fun H => H). Qed.

Lemma sent_from_call S0 w p :
  sent_from S0 w -> sent_from S0 (mkAppWorld (tl (responses w)) (draws w) (sent w ++ [p]) (posted w)).
Proof. intros [r Hr]. exists (r ++ [p]). cbn. rewrite Hr, app_assoc. reflexivity. Qed.

(** [generate_and_post_tweet] sends its base prompt first. *)
Lemma generate_first_prompt ff gf bp c w :
  exists rest, sent (snd (generate_and_post_tweet ff gf bp c w)) = sent w ++ bp :: rest.
Proof.
  set (S0 := sent w ++ [bp]).
  assert (H : J (sent_from S0) (posted w) (snd (call_openai bp w))).
  { unfold call_openai. destruct (responses w); split; cbn; try reflexivity;
      exists []; rewrite app_nil_r; reflexivity. }
  unfold generate_and_post_tweet.
  next d w1 E1.
  assert (H1 : J (sent_from S0) (posted w) w1) by exact H.
  set (Inv := sent_from S0) in *.
  set (Idraw := sent_from_draw S0). set (Icall := sent_from_call S0).
  set (ps := posted w) in *.
  next dt w2 E2.
  pose proof (run_step _ (fun x w' => J Inv ps w' /\ x <> []) _ _ _
                (J_or_fallback Inv Idraw ps ff gf c d w1 H1) E2) as [H2 _].
  next st w3 E3.
  pose proof (run_step _ (fun x w' => J Inv ps w' /\ summary_ok x) _ _ _
                (J_summarize_text Inv Icall ps dt w2 H2) E3) as [H3 _].
  next f1 w4 E4.
  pose proof (run_step _ (fun x w' => J Inv ps w' /\ x <> []) _ _ _
                (J_or_fallback Inv Idraw ps ff gf c st w3 H3) E4) as [H4 H4'].
  next f2 w5 E5.
  pose proof (run_step _ (fun x w' => J Inv ps w' /\ x <> []) _ _ _
                (J_guard_fallback Inv Idraw ps ff gf c f1 w4 H4 H4') E5) as [H5 H5'].
  next f3 w6 E6.
  pose proof (run_step _ (fun _ w' => J Inv ps w') _ _ _
                (proj1 (J_guard_short Inv Idraw ps f2 w5 H5 H5')) E6) as H6.
  next f4 w7 E7.
  pose proof (run_step _ (fun _ w' => J Inv ps w') _ _ _
                (proj1 (J_reference Inv Idraw ps c f3 w6 H6)) E7) as [[r Hr] _].
  exists r. cbn. rewrite Hr. unfold S0. rewrite <- app_assoc. reflexivity.
Qed.


Lemma fedja_posts ff gf listing w : exists pre r,
  posted (snd (post_fedja_tweet ff gf listing w)) = posted w ++ [pre ++ fedja_reference r] /\
  (length (pre ++ fedja_reference r) <= 280)%nat.
Proof.
  unfold post_fedja_tweet. pose proof (select_frame listing w) as [_ [_ Hp]].
  next img w1 E1. cbn [snd] in Hp.
  assert (Hg : forall bp, exists pre r,
    posted (snd (generate_and_post_tweet ff gf bp Fedja w1)) =
      posted w ++ [pre ++ fedja_reference r] /\
    (length (pre ++ fedja_reference r) <= 280)%nat).
  { intros bp.
    destruct (J_generate (fun _ => True) True_draw True_call (posted w) ff gf bp Fedja w1
                (conj I Hp)) as [f [r [_ [_ ->]]]].
    destruct (append_reference_shape f (fedja_reference r) (fedja_reference_length r))
      as [pre [-> Hl]].
    exists pre, r. split; [reflexivity | exact Hl]. }
  destruct img; apply Hg.
Qed.

(** [post_fedja_tweet] posts exactly one tweet, ending in a $FEDJA
    reference, of at most 280 characters. *)
Lemma post_fedja_tweet_posts ff gf listing w : exists pre r,
  posted (snd (post_fedja_tweet ff gf listing w)) = posted w ++ [pre ++ fedja_reference r] /\
  (length (pre ++ fedja_reference r) <= 280)%nat.
Proof. exact (fedja_posts ff gf listing w). Qed.

(** [post_fedja_tweet] first sends the [#FedjaFren] prompt when the images
    folder lists an image, the [#FedjaMoon] prompt otherwise. *)
Lemma post_fedja_tweet_prompt ff gf listing w :
  exists rest, sent (snd (post_fedja_tweet ff gf listing w)) =
    sent w ++ (if match listing with Some names => existsb is_image names | None => false end
               then fedja_prompt_fren else fedja_prompt_moon) :: rest.
Proof.
  unfold post_fedja_tweet. pose proof (select_frame listing w) as [_ [Hs _]].
  assert (Himg : match fst (select_random_image listing w) with Some _ => true | None => false end =
                 match listing with Some names => existsb is_image names | None => false end).
  { destruct listing as [names|]; [|reflexivity]. unfold select_random_image.
    destruct (filter is_image names) as [|i is] eqn:F; cbn [map].
    - cbn. destruct (existsb is_image names) eqn:Ex; [|reflexivity].
      apply existsb_exists in Ex as [x [Hx Hi]].
      assert (In x (filter is_image names)) by (apply filter_In; auto).
      rewrite F in H. contradiction.
    - unfold bind, ret. destruct (choice _ _ w). cbn.
      symmetry. apply existsb_exists. exists i. split; [|].
      + assert (In i (filter is_image names)) by (rewrite F; left; reflexivity).
        apply filter_In in H. tauto.
      + assert (In i (filter is_image names)) by (rewrite F; left; reflexivity).
        apply filter_In in H. tauto. }
  next img w1 E1. cbn [snd fst] in Hs, Himg. rewrite <- Himg, <- Hs.
  destruct img; apply generate_first_prompt.
Qed.


Definition tweet_ok (body : pystr) : Prop := body <> [] /\ (length body <= 280)%nat.

Lemma general_fallback_posts ff gf w : exists body,
  posted (snd (post_general_fallback ff gf w)) = posted w ++ [body] /\ tweet_ok body.
Proof.
  unfold post_general_fallback.
  pose proof (proj1 (J_fallback (fun _ => True) True_draw (posted w) ff gf GeneralCrypto w
                       (conj I eq_refl))) as H.
  next fb w1 E1. cbn [snd] in H.
  destruct (J_generate (fun _ => True) True_draw True_call (posted w) ff gf fb GeneralCrypto w1 H)
    as [f [_ [Hne [Hl ->]]]].
  exists f. split; [reflexivity | split; assumption].
Qed.

Lemma json_strs_map strs : json_strs (map TwitterBot.JStr strs) = Some strs.
Proof. induction strs as [|x xs IH]; cbn; [reflexivity | rewrite IH; reflexivity]. Qed.

Lemma json_strs_some l :
  Forall (fun j => exists t, j = TwitterBot.JStr t) l -> exists strs, json_strs l = Some strs.
Proof.
  induction 1 as [|x l [t ->] _ [strs IH]]; [exists []; reflexivity|].
  exists (t :: strs). cbn. rewrite IH. reflexivity.
Qed.

Lemma regular_topics_posts ff gf topics strs w :
  json_strs topics = Some strs -> exists body,
  posted (snd (post_regular_topics ff gf topics w)) = posted w ++ [body] /\ tweet_ok body.
Proof.
  intros Hs. destruct topics as [|t ts]; [apply general_fallback_posts|].
  unfold post_regular_topics. rewrite Hs.
  pose proof (J_call (fun _ => True) True_call (posted w)
                (trending_prompt (join [10%Z] strs)) w (conj I eq_refl)) as H.
  next o w1 E1. cbn [snd] in H. destruct H as [_ H].
  assert (Hfb : exists body, posted (snd (post_general_fallback ff gf w1)) = posted w ++ [body] /\
                             tweet_ok body) by (rewrite <- H; apply general_fallback_posts).
  destruct o as [a|]; [|exact Hfb].
  destruct (truthy a && (Z.of_nat (length a) <=? 280))%Z eqn:Ea; [|exact Hfb].
  apply andb_true_iff in Ea as [Ha Hl]. apply Z.leb_le in Hl.
  exists a. split; [cbn; rewrite H; reflexivity|].
  split; [destruct a; discriminate | lia].
Qed.

Lemma regular_posts lower ff gf s : exists body,
  posted (app (snd (post_regular_tweet lower ff gf s))) = posted (app s) ++ [body] /\
  tweet_ok body /\
  bot_slept (snd (post_regular_tweet lower ff gf s)) = bot_slept s.
Proof.
  unfold post_regular_tweet.
  destruct (TwitterExtra.cryptopanic_facts lower (cryptopanic s)) as [ts [tw [E [_ Hf]]]].
  rewrite E.
  destruct (json_strs_some ts) as [strs Hs].
  { eapply Forall_impl; [|exact Hf]. intros j [t [-> _]]. eauto. }
  destruct (regular_topics_posts ff gf ts strs (app s) Hs) as [body [Hp Hok]].
  unfold on_app. cbn [app cryptopanic bot_slept].
  destruct (post_regular_topics ff gf ts (app s)) as [u aw]. cbn in Hp |- *.
  exists body. auto.
Qed.

(** [post_regular_tweet] posts exactly one non-empty tweet of at most 280
    characters, whatever CryptoPanic and OpenAI answer. *)
Lemma post_regular_tweet_posts lower ff gf s : exists body,
  posted (app (snd (post_regular_tweet lower ff gf s))) = posted (app s) ++ [body] /\
  body <> [] /\ (length body <= 280)%nat.
Proof.
  destruct (regular_posts lower ff gf s) as [body [Hp [Hok _]]]. exists body. split; [exact Hp | exact Hok].
Qed.

(** With topics, [post_regular_tweet] sends one prompt holding the topics
    joined by newlines and posts the stripped answer when it is non-empty
    and at most 280 characters. *)
Lemma post_regular_topics_answer ff gf strs w a rest :
  strs <> [] -> responses w = Some a :: rest ->
  truthy (strip a) = true -> (length (strip a) <= 280)%nat ->
  post_regular_topics ff gf (map TwitterBot.JStr strs) w =
    (tt, mkAppWorld rest (draws w) (sent w ++ [trending_prompt (join [10%Z] strs)])
                    (posted w ++ [strip a])).
Proof.
  intros Hne Hr Ht Hl. destruct strs as [|s0 strs]; [contradiction|].
  unfold post_regular_topics. cbn [map]. rewrite <- (map_cons TwitterBot.JStr s0 strs).
  rewrite json_strs_map. unfold bind, call_openai. rewrite Hr. cbn [option_map].
  rewrite Ht. replace (Z.of_nat (length (strip a)) <=? 280)%Z with true
    by (symmetry; apply Z.leb_le; lia).
  reflexivity.
Qed.

Definition loop_sleep (x : Q) : Q :=
  if TwitterBot.Qltb x (1 # 5) then 43200 # 1 else 1800 # 1.

Lemma iteration_posts lower ff gf listing x s : exists body,
  posted (app (snd (run_bot_iteration lower ff gf listing x s))) = posted (app s) ++ [body] /\
  tweet_ok body /\
  bot_slept (snd (run_bot_iteration lower ff gf listing x s)) = bot_slept s ++ [loop_sleep x].
Proof.
  unfold run_bot_iteration, loop_sleep. destruct (TwitterBot.Qltb x (1 # 5)).
  - destruct (fedja_posts ff gf listing (app s)) as [pre [r [Hp Hl]]].
    unfold on_app. destruct (post_fedja_tweet ff gf listing (app s)) as [u aw]. cbn in Hp |- *.
    exists (pre ++ fedja_reference r). split; [exact Hp|]. split; [|reflexivity].
    split; [destruct pre; [apply fedja_reference_nonempty | discriminate] | exact Hl].
  - destruct (regular_posts lower ff gf s) as [body [Hp [Hok Hs]]].
    destruct (post_regular_tweet lower ff gf s) as [u s1]. cbn in Hp, Hs |- *.
    exists body. rewrite Hs. auto.
Qed.

Lemma run_bot_loop_facts lower ff gf listing xs : forall s, exists bodies,
  posted (app (snd (run_bot_loop lower ff gf listing xs s))) = posted (app s) ++ bodies /\
  length bodies = length xs /\
  Forall (fun b => b <> [] /\ (length b <= 280)%nat) bodies /\
  bot_slept (snd (run_bot_loop lower ff gf listing xs s)) = bot_slept s ++ map loop_sleep xs.
Proof.
  induction xs as [|x xs IH]; intros s.
  - exists []. cbn. rewrite !app_nil_r. auto.
  - cbn [run_bot_loop].
    destruct (iteration_posts lower ff gf listing x s) as [body [Hp [Hok Hs]]].
    destruct (run_bot_iteration lower ff gf listing x s) as [u s1]. cbn [snd] in Hp, Hs.
    destruct (IH s1) as [bodies [Hp' [Hl [Hf Hs']]]].
    exists (body :: bodies). rewrite Hp', Hp, Hs', Hs, <- !app_assoc.
    split; [reflexivity|]. split; [cbn; rewrite Hl; reflexivity|].
    split; [constructor; [exact Hok | exact Hf] | reflexivity].
Qed.


(** [n] passes of the [run_bot] loop post exactly [n] tweets, each
    non-empty and at most 280 characters, sleeping 43200 s after a $FEDJA
    pass ([x < 0.2]) and 1800 s after a regular one. *)
Lemma run_bot_loop_posts lower ff gf listing xs s : exists bodies,
  posted (app (snd (run_bot_loop lower ff gf listing xs s))) = posted (app s) ++ bodies /\
  length bodies = length xs /\
  Forall (fun b => b <> [] /\ (length b <= 280)%nat) bodies /\
  bot_slept (snd (run_bot_loop lower ff gf listing xs s)) =
    bot_slept s ++ map (fun x => if TwitterBot.Qltb x (1 # 5) then 43200 # 1 else 1800 # 1) xs.
Proof. exact (run_bot_loop_facts lower ff gf listing xs s). Qed.

Lemma lstrip_skipn s : exists k, lstrip s = skipn k s.
Proof.
  induction s as [|c s [k IH]]; [exists O; reflexivity|].
  cbn. destruct (is_space c); [exists (S k); exact IH | exists O; reflexivity].
Qed.

Lemma lstrip_head s : is_space (hd 0%Z (lstrip s)) = false \/ lstrip s = [].
Proof.
  induction s as [|c s IH]; [right; reflexivity|].
  cbn. destruct (is_space c) eqn:E; [exact IH | left; exact E].
Qed.

Lemma strip_ends s :
  strip s <> [] -> is_space (hd 0%Z (strip s)) = false /\ is_space (last (strip s) 0%Z) = false.
Proof.
  intros Hne. unfold strip in *. set (x := lstrip s) in *. split.
  - destruct (lstrip_skipn (rev x)) as [k Hk].
    rewrite Hk, skipn_rev, rev_involutive in Hne |- *.
    destruct (lstrip_head s) as [H|H]; fold x in H.
    + destruct x as [|c x']; [contradiction|].
      destruct (length (c :: x') - k)%nat eqn:E; [contradiction|]. exact H.
    + rewrite H in Hne. destruct (length (@nil Z) - k)%nat; contradiction.
  - destruct (lstrip_head (rev x)) as [H|H]; [|rewrite H in Hne; contradiction].
    destruct (lstrip (rev x)) as [|c l]; [contradiction|].
    cbn [rev]. rewrite last_last. exact H.
Qed.

(** Every prompt [load_prompts] returns is a stripped line of the file:
    non-empty, not starting or ending with whitespace. *)
Lemma load_prompts_stripped file p :
  In p (load_prompts file) ->
  exists lines line, file = Some lines /\ In line lines /\ p = strip line /\
    p <> [] /\ is_space (hd 0%Z p) = false /\ is_space (last p 0%Z) = false.
Proof.
  destruct file as [lines|]; [|intros []].
  intros H. apply in_map_iff in H as [line [<- Hl]]. apply filter_In in Hl as [Hl Ht].
  assert (Hne : strip line <> []) by (intros E; rewrite E in Ht; discriminate).
  exists lines, line. repeat split; auto; apply strip_ends; exact Hne.
Qed.

(** [chunk_text] raises ([None]) for size 0 and returns no chunk for a
    negative size, whatever the text. *)
Lemma chunk_text_edges text :
  chunk_text text 0 = None /\ forall n, (n < 0)%Z -> chunk_text text n = Some [].
Proof.
  split; [reflexivity|]. intros n Hn. unfold chunk_text, range0.
  replace (n =? 0)%Z with false by (symmetry; apply Z.eqb_neq; lia).
  replace (n <? 0)%Z with true by (symmetry; apply Z.ltb_lt; exact Hn). reflexivity.
Qed.

(** An empty text gives [None] without any OpenAI call. *)
Lemma summarize_text_empty w : summarize_text [] w = (None, w).
Proof. reflexivity. Qed.

(** Witnesses at concrete inputs. *)

Lemma post_regular_topics_answer_witness :
  post_regular_topics None None (map TwitterBot.JStr [ascii_str "BTC up"])
    (mkAppWorld [Some (ascii_str " lol ")] [] [] []) =
    (tt, mkAppWorld [] [] ([] ++ [trending_prompt (join [10%Z] [ascii_str "BTC up"])])
                    ([] ++ [strip (ascii_str " lol ")])).
Proof.
  apply (post_regular_topics_answer None None [ascii_str "BTC up"]
           (mkAppWorld [Some (ascii_str " lol ")] [] [] []) (ascii_str " lol ") []).
  - discriminate.
  - reflexivity.
  - reflexivity.
  - vm_compute. lia.
Defined.

Lemma load_prompts_stripped_witness :
  exists lines line, Some [ascii_str " gm "; ascii_str "  "] = Some lines /\ In line lines /\
    ascii_str "gm" = strip line /\ ascii_str "gm" <> [] /\
    is_space (hd 0%Z (ascii_str "gm")) = false /\ is_space (last (ascii_str "gm") 0%Z) = false.
Proof.
  apply (load_prompts_stripped (Some [ascii_str " gm "; ascii_str "  "]) (ascii_str "gm")).
  vm_compute. left. reflexivity.
Defined.

Lemma chunk_text_edges_witness :
  chunk_text (ascii_str "abc") 0 = None /\ chunk_text (ascii_str "abc") (-3) = Some [].
Proof.
  split; [apply (proj1 (chunk_text_edges (ascii_str "abc")))|].
  apply (proj2 (chunk_text_edges (ascii_str "abc"))). lia.
Defined.

End AppBotFacts.
